(** * RLzoo baselines: policy gradient, DQN Q-networks and TD3 defaults

    A shallow embedding of the parts of
    - [baselines/algorithms/pg/pg.py] (class [PG]),
    - [baselines/algorithms/dqn/default.py] ([MLPQNet.forward], [CNNQNet.forward]),
    - [baselines/algorithms/td3/default.py] (the per-environment tables)
    that the specification talks about, and the theorems relating them.

    Numbers: the rewards and returns of [PG] are modelled by exact reals
    [R]; rounding is not modelled, so what is proved of them is what does
    not depend on it: which operations run, in which order and on which
    data, the lengths of the arrays, and where a divisor is zero.  The one
    place where the source can leave the finite numbers, the unguarded
    division by [np.std], is modelled by a division that yields
    [NonFinite] (NumPy stores [nan] or [inf] there and only emits a
    warning).  The arithmetic of the [tf.float32] tensors of the
    Q-networks is a parameter, of which nothing is assumed.

    Framework and environment calls (TensorLayer models, optimizers, the
    gym environment, the checkpoint helpers) are parameters of the
    development and are assumed to return normally; exceptions raised by
    the Python code of the repository itself are modelled explicitly. *)

From Stdlib Require Import Reals Lra Lia ZArith QArith.
From stdpp Require Import gmap strings list fin_maps.

Set Default Proof Using "Type".

(** ** Python exceptions and results *)

Inductive exn : Type :=
| IndexError
| ValueError
| ZeroDivisionError
| UnboundLocalError.

Inductive result (A : Type) : Type :=
| Ok (a : A)
| Raise (e : exn).
Arguments Ok {A} a.
Arguments Raise {A} e.

(** ** Python built-ins *)

Module Py.

(** [range(lo, hi)] *)
Definition range (lo hi : Z) : list Z :=
  map (fun k => (lo + Z.of_nat k)%Z) (seq 0 (Z.to_nat (hi - lo))).

(** [a % b] on integers: the sign of the result follows [b], and a zero
    [b] raises. *)
Definition mod_ (a b : Z) : result Z :=
  if (b =? 0)%Z then Raise ZeroDivisionError else Ok (a mod b)%Z.

(** Truth value of an argument that is an integer or [None]. *)
Definition truthy (x : option Z) : bool :=
  match x with
  | None => false
  | Some z => negb (z =? 0)%Z
  end.

End Py.

(** ** NumPy arrays of floats *)

Module Np.
Open Scope R_scope.

(** The value stored by a float division: NumPy does not raise on a zero
    divisor, it stores [nan] (for [0/0]) or [inf] and warns. *)
Inductive np_float : Type :=
| Finite (x : R)
| NonFinite.

Definition np_div (x y : R) : np_float :=
  if Req_dec_T y 0 then NonFinite else Finite (x / y).

Definition np_sum (l : list R) : R := foldr Rplus 0 l.

(** [np.mean].  On an empty array NumPy returns [nan]; that value is never
    read by the code below, whose elementwise operations then range over no
    element. *)
Definition np_mean (l : list R) : R := np_sum l / INR (length l).

(** [np.std] with its default [ddof = 0]:
    [sqrt(mean(abs(x - x.mean())**2))]. *)
Definition np_std (l : list R) : R :=
  sqrt (np_mean (map (fun x => (Rabs (x - np_mean l)) ^ 2) l)).

Definition np_zeros_like (l : list R) : list R := replicate (length l) 0.

(** [reversed(range(0, n))] *)
Definition reversed_range (n : nat) : list nat := reverse (seq 0 n).

End Np.
Import Np.

(** ** [PG._discount_and_norm_rewards]

    [reward_list] is the float array that [update] builds from the stored
    rewards ([np.array(r).flatten()], each reward an [np.float32] array),
    so [np.zeros_like] yields a float array and the in-place operations
    stay in floats. *)

Module Discount.
Open Scope R_scope.

(** The body of the [for t in reversed(range(0, len(reward_list)))] loop,
    iterated over the remaining indices [ts].  Reading [reward_list[t]] or
    writing [discounted_ep_rs[t]] out of range raises [IndexError]. *)
Fixpoint discount_loop (reward_list : list R) (gamma : R) (ts : list nat)
    (running_add : R) (discounted_ep_rs : list R) : result (list R) :=
  match ts with
  | [] => Ok discounted_ep_rs
  | t :: ts' =>
      match reward_list !! t with
      | None => Raise IndexError
      | Some r_t =>
          let running_add := running_add * gamma + r_t in
          if bool_decide (t < length discounted_ep_rs)%nat
          then discount_loop reward_list gamma ts' running_add
                 (<[t := running_add]> discounted_ep_rs)
          else Raise IndexError
      end
  end.

Definition discount_rewards (reward_list : list R) (gamma : R) : result (list R) :=
  discount_loop reward_list gamma (reversed_range (length reward_list))
    0 (np_zeros_like reward_list).

(** [discounted_ep_rs -= np.mean(discounted_ep_rs)] followed by
    [discounted_ep_rs /= np.std(discounted_ep_rs)]: the standard deviation
    is taken of the already centred array.  The entries are exact reals:
    the values describe the float computation up to rounding only, and no
    property below is about them beyond the division by a zero deviation. *)
Definition normalize (discounted_ep_rs : list R) : list np_float :=
  let centred := map (fun x => x - np_mean discounted_ep_rs) discounted_ep_rs in
  map (fun x => np_div x (np_std centred)) centred.

Definition _discount_and_norm_rewards (reward_list : list R) (gamma : R)
  : result (list np_float) :=
  match discount_rewards reward_list gamma with
  | Ok d => Ok (normalize d)
  | Raise e => Raise e
  end.

(** The textbook definition the specification refers to: the discounted
    return [d t = r t + gamma * d (t + 1)], with [d (len r) = 0]. *)
Fixpoint discounted_returns (gamma : R) (r : list R) : list R :=
  match r with
  | [] => []
  | x :: r' =>
      let d' := discounted_returns gamma r' in
      (x + gamma * hd 0 d') :: d'
  end.

End Discount.
Import Discount.

(** ** The environment and the framework, as interfaces *)

(** The gym environment interface used by [PG.learn].  [env_step] returns
    [(observation_, reward, done)]; the [info] component is never read. *)
Class Env (E Obs Act : Type) : Type := {
  env_reset : E -> E * Obs;
  env_step : E -> Act -> E * (Obs * R * bool);
  env_render : E -> E;
  env_seed : Z -> E -> E;
  env_spec_id : E -> string;
}.

(** What [PG] uses of TensorFlow, TensorLayer, NumPy's generator and
    [common.utils].  [Model] is the policy network with its weights, [Opt]
    the optimizer with its slots, [Rng] the global generators, [Files] the
    file system. *)
Class Framework (Obs Act Model Opt Rng Files : Type) : Type := {
  (** [self.model(np.array([s], np.float32))[0].numpy()]: samples *)
  model_sample : Model -> Rng -> Obs -> Act * Rng;
  (** [self.model(np.array([s], np.float32), greedy=True).numpy()[0]] *)
  model_greedy : Model -> Obs -> Act;
  (** the [tf.GradientTape] block of [update] followed by
      [optimizer.apply_gradients]: one gradient step on the loss
      [reduce_mean(neglogp(a) * discounted_ep_rs_norm)] *)
  gradient_step :
    Model -> Opt -> list Obs -> list Act -> list np_float -> Model * Opt;
  np_random_seed : Z -> Rng -> Rng;
  tf_random_set_seed : Z -> Rng -> Rng;
  (** [common.utils.save_model(model, name, algorithm_name)] *)
  save_model : Model -> string -> string -> Files -> Files;
  (** [common.utils.load_model(model, name, algorithm_name)] *)
  load_model : Model -> string -> string -> Files -> Model;
  (** [common.utils.plot_save_log(reward_buffer, Algorithm_name, Env_name)] *)
  plot_save_log : list R -> string -> string -> Files -> Files;
}.

(** ** Class [PG] *)

Module PG.
Section pg.
Open Scope R_scope.

Context {E Obs Act Model Opt Rng Files : Type}.
Context `{!Env E Obs Act} `{!Framework Obs Act Model Opt Rng Files}.

(** One entry of [self.buffer]: [[s, a, r]]. *)
Definition transition : Type := Obs * Act * R.

(** The attributes of a [PG] object. *)
Record t : Type := mk {
  name : string;
  model : Model;
  buffer : list transition;
  optimizer : Opt;
}.

(** [PG.__init__(net_list, optimizers_list)], after its two asserts. *)
Definition init (net : Model) (opt : Opt) : t :=
  {| name := "pg"; model := net; buffer := []; optimizer := opt |}.

(** Everything a call can change: the object, the environment, the global
    generators and the files. *)
Record state : Type := mk_state {
  self : t;
  env : E;
  rng : Rng;
  files : Files;
}.

(** What a run does, in order: calls on the environment, on the global
    generators, on the checkpoint helpers, prints, and the calls of
    [learn] to the methods of the object. *)
Inductive event : Type :=
| NpSeed (seed : Z)
| TfSeed (seed : Z)
| EnvSeed (seed : Z)
| EnvReset
| EnvRender
| EnvStep (action : Act) (observation_ : Obs) (reward : R) (done : bool)
| ChooseAction (greedy : bool) (s : Obs)
| StoreTransition (s : Obs) (a : Act) (r : R)
| Update (gamma : R)
| Save
| LoadCkpt
| PrintLine (line : string)
| PrintEpisode (i n : Z) (ep_rs_sum : R)
| PlotSaveLog (reward_buffer : list R) (algorithm_name env_name : string).

(** Computations: state passing, an event trace, and Python exceptions.
    A raised exception keeps the state and the trace reached so far. *)
Definition M (A : Type) : Type := state -> result A * state * list event.

Definition ret {A} (a : A) : M A := fun st => (Ok a, st, []).

Definition bind {A B} (m : M A) (k : A -> M B) : M B := fun st =>
  match m st with
  | (Ok a, st1, tr1) =>
      let '(r, st2, tr2) := k a st1 in (r, st2, tr1 ++ tr2)
  | (Raise e, st1, tr1) => (Raise e, st1, tr1)
  end.

Definition raise {A} (e : exn) : M A := fun st => (Raise e, st, []).

Definition emit (ev : event) : M unit := fun st => (Ok tt, st, [ev]).

Definition get : M state := fun st => (Ok st, st, []).

Definition put (st : state) : M unit := fun _ => (Ok tt, st, []).

(** [try: body  except: handler], the bare [except] that catches every
    exception. *)
Definition try_except {A} (body handler : M A) : M A := fun st =>
  match body st with
  | (Ok a, st1, tr1) => (Ok a, st1, tr1)
  | (Raise _, st1, tr1) =>
      let '(r, st2, tr2) := handler st1 in (r, st2, tr1 ++ tr2)
  end.

Notation "x <- m ;; k" := (bind m (fun x => k))
  (at level 100, m at next level, right associativity).
Notation "m ;; k" := (bind m (fun _ => k))
  (at level 100, right associativity).

Definition set_self (f : t -> t) : M unit :=
  st <- get ;;
  put {| self := f (self st); env := env st; rng := rng st; files := files st |}.

(** *** Methods *)

Definition choose_action (s : Obs) : M Act :=
  emit (ChooseAction false s) ;;
  st <- get ;;
  let '(a, rng') := model_sample (model (self st)) (rng st) s in
  put {| self := self st; env := env st; rng := rng'; files := files st |} ;;
  ret a.

Definition choose_action_greedy (s : Obs) : M Act :=
  emit (ChooseAction true s) ;;
  st <- get ;;
  ret (model_greedy (model (self st)) s).

(** [self.buffer.append([s, a, r])] *)
Definition store_transition (s : Obs) (a : Act) (r : R) : M unit :=
  emit (StoreTransition s a r) ;;
  set_self (fun pg =>
    {| name := name pg; model := model pg;
       buffer := buffer pg ++ [(s, a, r)]; optimizer := optimizer pg |}).

(** [s, a, r = zip] of the unpacked buffer: binding three names raises
    [ValueError] when the buffer, hence the zip, is empty. *)
Definition unzip_buffer (b : list transition)
  : result (list Obs * list Act * list R) :=
  match b with
  | [] => Raise ValueError
  | _ => Ok (map (fun x => fst (fst x)) b, map (fun x => snd (fst x)) b, map snd b)
  end.

Definition lift {A} (r : result A) : M A := fun st => (r, st, []).

Definition update (gamma : R) : M (list np_float) :=
  emit (Update gamma) ;;
  st <- get ;;
  sar <- lift (unzip_buffer (buffer (self st))) ;;
  let '(s, a, r) := sar in
  discounted_ep_rs_norm <- lift (_discount_and_norm_rewards r gamma) ;;
  let '(model', optimizer') :=
    gradient_step (model (self st)) (optimizer (self st)) s a
      discounted_ep_rs_norm in
  set_self (fun pg =>
    {| name := name pg; model := model'; buffer := buffer pg;
       optimizer := optimizer' |}) ;;
  set_self (fun pg =>
    {| name := name pg; model := model pg; buffer := [];
       optimizer := optimizer pg |}) ;;
  ret discounted_ep_rs_norm.

Definition save : M unit :=
  emit Save ;;
  st <- get ;;
  put {| self := self st; env := env st; rng := rng st;
         files := save_model (model (self st)) "policy" (name (self st))
                    (files st) |}.

Definition load_ckpt : M unit :=
  emit LoadCkpt ;;
  st <- get ;;
  set_self (fun pg =>
    {| name := name pg;
       model := load_model (model pg) "policy" (name pg) (files st);
       buffer := buffer pg; optimizer := optimizer pg |}).

(** *** [PG.learn] *)

Definition reset : M Obs :=
  emit EnvReset ;;
  st <- get ;;
  let '(env', observation) := env_reset (env st) in
  put {| self := self st; env := env'; rng := rng st; files := files st |} ;;
  ret observation.

Definition render_env : M unit :=
  emit EnvRender ;;
  st <- get ;;
  put {| self := self st; env := env_render (env st); rng := rng st;
         files := files st |}.

Definition step (action : Act) : M (Obs * R * bool) :=
  st <- get ;;
  let '(env', (observation_, reward, done)) := env_step (env st) action in
  emit (EnvStep action observation_ reward done) ;;
  put {| self := self st; env := env'; rng := rng st; files := files st |} ;;
  ret (observation_, reward, done).

(** The arguments of [learn] other than [env], which lives in the state. *)
Record args : Type := mk_args {
  train_episodes : Z;
  test_episodes : Z;
  max_steps : Z;
  save_interval : Z;
  mode : string;
  render : bool;
  gamma : R;
  seed : option Z;
}.

Definition default_args : args :=
  {| train_episodes := 300; test_episodes := 200; max_steps := 3000;
     save_interval := 100; mode := "train"; render := false;
     gamma := 0.95; seed := None |}.

(** [if seed:] with [seed] an integer or [None]: [None] and [0] are falsy. *)
Definition seed_generators (seed : option Z) : M unit :=
  match seed with
  | None => ret tt
  | Some z =>
      if (z =? 0)%Z then ret tt
      else
        emit (NpSeed z) ;;
        emit (TfSeed z) ;;
        emit (EnvSeed z) ;;
        st <- get ;;
        put {| self := self st; env := env_seed z (env st);
               rng := tf_random_set_seed z (np_random_seed z (rng st));
               files := files st |}
  end.

(** The [for step in range(max_steps)] loop of train mode, over the
    remaining values of [step]; returns [ep_rs_sum]. *)
Fixpoint train_steps (a : args) (steps : list Z) (observation : Obs)
    (ep_rs_sum : R) : M R :=
  match steps with
  | [] => ret ep_rs_sum
  | _ :: steps' =>
      (if render a then render_env else ret tt) ;;
      action <- choose_action observation ;;
      res <- step action ;;
      let '(observation_, reward, done) := res in
      store_transition observation action reward ;;
      let ep_rs_sum := ep_rs_sum + reward in
      if done then ret ep_rs_sum
      else train_steps a steps' observation_ ep_rs_sum
  end.

(** The same loop in test mode: greedy actions, nothing stored. *)
Fixpoint test_steps (a : args) (steps : list Z) (observation : Obs)
    (ep_rs_sum : R) : M R :=
  match steps with
  | [] => ret ep_rs_sum
  | _ :: steps' =>
      (if render a then render_env else ret tt) ;;
      action <- choose_action_greedy observation ;;
      res <- step action ;;
      let '(observation_, reward, done) := res in
      let ep_rs_sum := ep_rs_sum + reward in
      if done then ret ep_rs_sum
      else test_steps a steps' observation_ ep_rs_sum
  end.

(** Reading a local name that was never assigned. *)
Definition read_local (x : option R) : M R :=
  match x with
  | Some v => ret v
  | None => raise UnboundLocalError
  end.

(** [try: running_reward = running_reward * 0.99 + ep_rs_sum * 0.01]
    [except: running_reward = ep_rs_sum]; returns the new value. *)
Definition update_running_reward (running_reward : option R) (ep_rs_sum : R)
  : M R :=
  try_except
    (rr <- read_local running_reward ;; ret (rr * 0.99 + ep_rs_sum * 0.01))
    (ret ep_rs_sum).

(** The locals of [learn] that survive an episode of train mode. *)
Record locals : Type := mk_locals {
  running_reward : option R;
  reward_buffer : list R;
}.

(** [if i_episode and i_episode % save_interval == 0: self.save()] *)
Definition save_if_due (a : args) (i_episode : Z) : M unit :=
  if (i_episode =? 0)%Z then ret tt
  else
    m <- lift (Py.mod_ i_episode (save_interval a)) ;;
    if (m =? 0)%Z then save else ret tt.

Definition train_episode (a : args) (i_episode : Z) (l : locals) : M locals :=
  observation <- reset ;;
  ep_rs_sum <- train_steps a (Py.range 0 (max_steps a)) observation 0 ;;
  rr <- update_running_reward (running_reward l) ep_rs_sum ;;
  emit (PrintEpisode i_episode (train_episodes a) ep_rs_sum) ;;
  let reward_buffer := reward_buffer l ++ [rr] in
  update (gamma a) ;;
  save_if_due a i_episode ;;
  ret {| running_reward := Some rr; reward_buffer := reward_buffer |}.

Fixpoint train_loop (a : args) (episodes : list Z) (l : locals) : M locals :=
  match episodes with
  | [] => ret l
  | i_episode :: episodes' =>
      l' <- train_episode a i_episode l ;;
      train_loop a episodes' l'
  end.

Definition test_episode (a : args) (eps : Z) (running_reward : option R)
  : M (option R) :=
  observation <- reset ;;
  ep_rs_sum <- test_steps a (Py.range 0 (max_steps a)) observation 0 ;;
  rr <- update_running_reward running_reward ep_rs_sum ;;
  emit (PrintEpisode eps (test_episodes a) ep_rs_sum) ;;
  ret (Some rr).

Fixpoint test_loop (a : args) (episodes : list Z) (running_reward : option R)
  : M (option R) :=
  match episodes with
  | [] => ret running_reward
  | eps :: episodes' =>
      rr <- test_episode a eps running_reward ;;
      test_loop a episodes' rr
  end.

Definition learn (a : args) : M unit :=
  seed_generators (seed a) ;;
  if String.eqb (mode a) "train" then
    l <- train_loop a (Py.range 1 (train_episodes a + 1))
           {| running_reward := None; reward_buffer := [] |} ;;
    st <- get ;;
    emit (PlotSaveLog (reward_buffer l) "PG" (env_spec_id (env st))) ;;
    put {| self := self st; env := env st; rng := rng st;
           files := plot_save_log (reward_buffer l) "PG"
                      (env_spec_id (env st)) (files st) |}
  else if String.eqb (mode a) "test" then
    load_ckpt ;;
    test_loop a (Py.range 0 (test_episodes a)) None ;;
    ret tt
  else
    emit (PrintLine "unknown mode type").

(** *** Shapes of traces

    The vocabulary in which the specification describes a run of
    [learn]. *)

Definition is_seeding (ev : event) : bool :=
  match ev with
  | NpSeed _ | TfSeed _ | EnvSeed _ => true
  | _ => false
  end.

(** Calls that read or write files. *)
Definition is_file_io (ev : event) : bool :=
  match ev with
  | Save | LoadCkpt | PlotSaveLog _ _ _ => true
  | _ => false
  end.

(** Events that an episode of either mode can produce. *)
Definition is_episode_event (ev : event) : bool :=
  match ev with
  | EnvReset | EnvRender | EnvStep _ _ _ _ | ChooseAction _ _
  | StoreTransition _ _ _ | Update _ | Save | PrintEpisode _ _ _ => true
  | _ => false
  end.

(** Events that an episode of test mode can produce. *)
Definition is_test_event (ev : event) : bool :=
  match ev with
  | EnvReset | EnvRender | EnvStep _ _ _ _ | ChooseAction true _
  | PrintEpisode _ _ _ => true
  | _ => false
  end.

(** The reward sum shown by an episode's progress line. *)
Definition printed_sum (ev : event) : option R :=
  match ev with
  | PrintEpisode _ _ ep_rs_sum => Some ep_rs_sum
  | _ => None
  end.

Definition seeding_events (seed : option Z) : list event :=
  match seed with
  | None => []
  | Some z => if (z =? 0)%Z then [] else [NpSeed z; TfSeed z; EnvSeed z]
  end.

(** One iteration of the step loop of train mode: choose an action, step
    the environment, store the transition (after rendering, if asked). *)
Definition train_iteration (a : args) (s : Obs) (act : Act) (s_ : Obs)
    (r : R) (done : bool) : list event :=
  (if render a then [EnvRender] else [])
  ++ [ChooseAction false s; EnvStep act s_ r done; StoreTransition s act r].

(** At most [n] iterations, the last one being the first that reports
    [done], if any does. *)
Inductive train_steps_trace (a : args) : nat -> list event -> Prop :=
| steps_exhausted : train_steps_trace a 0 []
| steps_done n s act s_ r :
    train_steps_trace a (S n) (train_iteration a s act s_ r true)
| steps_continue n s act s_ r tr :
    train_steps_trace a n tr ->
    train_steps_trace a (S n) (train_iteration a s act s_ r false ++ tr).

(** Episode [i] of train mode: one reset, the steps, the progress line,
    one update, and a checkpoint when [i] is a multiple of
    [save_interval]. *)
Definition train_episode_trace (a : args) (i : Z) (tr : list event) : Prop :=
  exists steps ep_rs_sum,
    train_steps_trace a (Z.to_nat (max_steps a)) steps /\
    tr = [EnvReset] ++ steps
         ++ [PrintEpisode i (train_episodes a) ep_rs_sum; Update (gamma a)]
         ++ (if (i mod save_interval a =? 0)%Z then [Save] else []).

(** The accumulator as the specification describes it: the first episode
    sets it to its reward sum, every later one to
    [0.99 * previous + 0.01 * ep_rs_sum]. *)
Fixpoint running_rewards (previous : option R) (sums : list R) : list R :=
  match sums with
  | [] => []
  | ep_rs_sum :: sums' =>
      let rr := match previous with
                | None => ep_rs_sum
                | Some p => 0.99 * p + 0.01 * ep_rs_sum
                end in
      rr :: running_rewards (Some rr) sums'
  end.

(** The accumulator after the episodes whose sums are [sums]. *)
Definition last_running_reward (previous : option R) (sums : list R)
  : option R :=
  match last (running_rewards previous sums) with
  | Some rr => Some rr
  | None => previous
  end.

(** A complete run of train mode as the specification describes it: after
    the seeding, one episode per value of [range(1, train_episodes + 1)],
    then the plot of the log. *)
Definition train_run (a : args) (st : state) : Prop :=
  exists st' eps rb id,
    learn a st
    = (Ok tt, st',
       seeding_events (seed a) ++ concat eps ++ [PlotSaveLog rb "PG" id]) /\
    Forall2 (train_episode_trace a) (Py.range 1 (train_episodes a + 1)) eps.

Definition is_checkpoint_io (ev : event) : bool :=
  match ev with
  | Save | LoadCkpt => true
  | _ => false
  end.

(** No file is touched except through the checkpoint helpers. *)
Definition only_checkpoint_io (tr : list event) : Prop :=
  Forall (fun ev => is_file_io ev = true -> is_checkpoint_io ev = true) tr.

End pg.
End PG.

(** ** A small concrete environment and framework

    An episode of this environment ends at its second step and pays a
    reward of one per step; the framework counts gradient steps, remembers
    the seeds it was given, and lists the names of the files written. *)

Module Tiny.
Open Scope R_scope.

#[export] Instance tiny_env : Env nat nat nat := {|
  env_reset := fun _ => (0%nat, 0%nat);
  env_step := fun e _ => (S e, (S e, 1, Nat.leb 2 (S e)));
  env_render := fun e => e;
  env_seed := fun z _ => Z.to_nat z;
  env_spec_id := fun _ => "Tiny-v0";
|}.

#[export] Instance tiny_framework
  : Framework nat nat nat nat (list Z) (list string) := {|
  model_sample := fun _ rng _ => (0%nat, rng);
  model_greedy := fun _ _ => 0%nat;
  gradient_step := fun m o _ _ _ => (S m, S o);
  np_random_seed := fun z rng => z :: rng;
  tf_random_set_seed := fun z rng => z :: rng;
  save_model := fun _ name alg fs => fs ++ [String.append alg (String.append "/" name)];
  load_model := fun m _ _ _ => m;
  plot_save_log := fun _ alg env_name fs =>
    fs ++ [String.append alg (String.append "-" env_name)];
|}.

Definition state : Type :=
  @PG.state nat nat nat nat nat (list Z) (list string).

(** A freshly constructed [PG] in a fresh world. *)
Definition st0 : state :=
  {| PG.self := PG.init 0%nat 0%nat; PG.env := 0%nat; PG.rng := [];
     PG.files := [] |}.

(** The same world after [store_transition(0, 0, 1)]. *)
Definition st1 : state :=
  {| PG.self := {| PG.name := "pg"; PG.model := 0%nat;
                   PG.buffer := [(0%nat, 0%nat, 1)]; PG.optimizer := 0%nat |};
     PG.env := 0%nat; PG.rng := []; PG.files := [] |}.

(** [learn(env, train_episodes=2, max_steps=3, save_interval=2)] *)
Definition train_args : PG.args :=
  {| PG.train_episodes := 2; PG.test_episodes := 200; PG.max_steps := 3;
     PG.save_interval := 2; PG.mode := "train"; PG.render := false;
     PG.gamma := 0.95; PG.seed := None |}.

(** [learn(env, train_episodes=2, max_steps=0)] *)
Definition no_step_args : PG.args :=
  {| PG.train_episodes := 2; PG.test_episodes := 200; PG.max_steps := 0;
     PG.save_interval := 100; PG.mode := "train"; PG.render := false;
     PG.gamma := 0.95; PG.seed := None |}.

(** [learn(env, train_episodes=2, max_steps=3, save_interval=0)] *)
Definition zero_interval_args : PG.args :=
  {| PG.train_episodes := 2; PG.test_episodes := 200; PG.max_steps := 3;
     PG.save_interval := 0; PG.mode := "train"; PG.render := false;
     PG.gamma := 0.95; PG.seed := None |}.

(** [learn(env, test_episodes=2, max_steps=3, mode='test', render=True)] *)
Definition test_args : PG.args :=
  {| PG.train_episodes := 300; PG.test_episodes := 2; PG.max_steps := 3;
     PG.save_interval := 100; PG.mode := "test"; PG.render := true;
     PG.gamma := 0.95; PG.seed := None |}.

(** [learn(env, mode='eval', seed=7)] *)
Definition eval_args : PG.args :=
  {| PG.train_episodes := 300; PG.test_episodes := 200; PG.max_steps := 3000;
     PG.save_interval := 100; PG.mode := "eval"; PG.render := false;
     PG.gamma := 0.95; PG.seed := Some 7%Z |}.

End Tiny.

(** ** The Q-networks of [dqn/default.py] *)

Module DQN.

(** The arithmetic of the [tf.float32] tensors, as far as [forward] uses
    it.  It is a parameter of the networks: no rounding behaviour is
    assumed, so what is proved of [forward] holds of whatever these
    operations compute. *)
Class Float32 (F : Type) : Type := {
  tf_add : F -> F -> F;
  tf_sub : F -> F -> F;
  tf_reduce_mean : list F -> F;
  tf_div_255 : F -> F;
}.

Section nets.

(** Tensor entries, and the activations between layers; a batch is a list
    of rows, and every layer acts on each row independently. *)
Context {F : Type} `{!Float32 F}.
Context {Latent Hidden : Type}.

(** [tf.reduce_mean(q_out, 1, True)]: one mean per row. *)
Definition reduce_mean_1 (q_out : list (list F)) : list F :=
  map tf_reduce_mean q_out.

(** Broadcasting a column (shape [(batch, 1)]) against a matrix. *)
Definition add_column (col : list F) (mat : list (list F)) : list (list F) :=
  zip_with (fun c row => map (fun x => tf_add c x) row) col mat.

Definition sub_column (mat : list (list F)) (col : list F) : list (list F) :=
  zip_with (fun row c => map (fun x => tf_sub x c) row) mat col.

(** [MLPQNet(in_dim, act_dim, dueling)]: the layers built by [__init__].
    [vmlp] is only built, and only used, when [dueling] holds. *)
Record MLPQNet : Type := {
  mlp_act_dim : nat;
  mlp_dueling : bool;
  mlp : list F -> Latent;
  qmlp : Latent -> list F;
  vmlp : Latent -> F;
}.

(** The [qmlp] layer has [act_dim] units. *)
Definition MLPQNet_wf (net : MLPQNet) : Prop :=
  forall latent, length (qmlp net latent) = mlp_act_dim net.

(** [MLPQNet.forward]; [obv] is the batch after [tf.cast(obv, tf.float32)]. *)
Definition MLPQNet_forward (net : MLPQNet) (obv : list (list F))
  : list (list F) :=
  let latent := map (mlp net) obv in
  let q_out := map (qmlp net) latent in
  if mlp_dueling net then
    let v_out := map (vmlp net) latent in
    sub_column (add_column v_out q_out) (reduce_mean_1 q_out)
  else q_out.

(** [CNNQNet(in_dim, act_dim, dueling)]; [cnn] stands for the
    convolutional stack followed by [flatten_reshape]. *)
Record CNNQNet : Type := {
  cnn_act_dim : nat;
  cnn_dueling : bool;
  cnn : list F -> Latent;
  preq : Latent -> Hidden;
  qout : Hidden -> list F;
  prev : Latent -> Hidden;
  vout : Hidden -> F;
}.

Definition CNNQNet_wf (net : CNNQNet) : Prop :=
  forall hidden, length (qout net hidden) = cnn_act_dim net.

(** [CNNQNet.forward]; [obv] is the batch after [tf.cast(obv, tf.float32)]. *)
Definition CNNQNet_forward (net : CNNQNet) (obv : list (list F))
  : list (list F) :=
  let obv := map (map tf_div_255) obv in
  let mlp_in := map (cnn net) obv in
  let q_out := map (fun x => qout net (preq net x)) mlp_in in
  if cnn_dueling net then
    let v_out := map (fun x => vout net (prev net x)) mlp_in in
    sub_column (add_column v_out q_out) (reduce_mean_1 q_out)
  else q_out.

End nets.
Arguments MLPQNet F Latent : clear implicits.
Arguments CNNQNet F Latent Hidden : clear implicits.

(** Exact arithmetic, one instance among others, used to run [forward]
    on a small network. *)
#[global] Instance exact_arithmetic : Float32 R := {|
  tf_add := Rplus;
  tf_sub := Rminus;
  tf_reduce_mean := np_mean;
  tf_div_255 := fun x => (x / 255)%R;
|}.

(** A small dueling network with two actions. *)
Definition tiny_mlp : MLPQNet R R :=
  {| mlp_act_dim := 2; mlp_dueling := true;
     mlp := fun obv => np_sum obv;
     qmlp := fun latent => [latent; 2 * latent]%R;
     vmlp := fun latent => (latent + 1)%R |}.

End DQN.

(** ** The tables of [td3/default.py] *)

Module TD3.

(** The networks and optimizers are framework objects; they are described
    by the constructor call that builds them, with the name scope it is
    built in.  A space is described by its shape. *)
Inductive network : Type :=
| QNetwork (scope : string) (observation_space action_space : list Z)
    (hidden_dim_list : list Z)
| DeterministicPolicyNetwork (scope : string)
    (observation_space action_space : list Z) (hidden_dim_list : list Z).

Inductive optimizer : Type :=
| Adam (learning_rate : Q).

Inductive value : Type :=
| VInt (n : Z)
| VFloat (x : Q)
| VNets (nets : list network)
| VOptimizers (opts : list optimizer).

Record env : Type := {
  observation_space : list Z;
  action_space : list Z;
}.

(** What a configuration function returns, with the seed it has passed to
    [set_seed(seed, env)], if it has called it. *)
Record tables : Type := {
  seeded : option Z;
  alg_params : gmap string value;
  learn_params : gmap string value;
}.

(** [shape[0]] *)
Definition first (shape : list Z) : result Z :=
  match shape !! 0%nat with
  | Some d => Ok d
  | None => Raise IndexError
  end.

Definition bind {A B} (r : result A) (k : A -> result B) : result B :=
  match r with
  | Ok a => k a
  | Raise e => Raise e
  end.

(** The six networks built under [tf.name_scope('TD3')]. *)
Definition net_list (e : env) (num_hidden_layer : nat) (hidden_dim : Z)
  : list network :=
  let hidden := replicate num_hidden_layer hidden_dim in
  [ QNetwork "TD3/Q_Net1" (observation_space e) (action_space e) hidden;
    QNetwork "TD3/Q_Net2" (observation_space e) (action_space e) hidden;
    QNetwork "TD3/Target_Q_Net1" (observation_space e) (action_space e) hidden;
    QNetwork "TD3/Target_Q_Net2" (observation_space e) (action_space e) hidden;
    DeterministicPolicyNetwork "TD3/Policy"
      (observation_space e) (action_space e) hidden;
    DeterministicPolicyNetwork "TD3/Target_Policy"
      (observation_space e) (action_space e) hidden ].

(** Each function below is a translation of the function of the same
    name; [if alg_params.get('net_list') is None] and the test on
    ['optimizers_list'] are lookups in the table just built.  Floats are
    written as exact rationals: [5e5], [1.], [0.1], [3e-4], [0.5]. *)

Definition classic_control (e : env) (default_seed : bool) : result tables :=
  let seeded := if default_seed then Some 2%Z else None in
  bind (first (observation_space e)) (fun state_dim =>
  bind (first (action_space e)) (fun action_dim =>
  let alg_params : gmap string value := list_to_map [
    ("state_dim", VInt state_dim);
    ("action_dim", VInt action_dim);
    ("replay_buffer_capacity", VFloat 500000);
    ("policy_target_update_interval", VInt 5);
    ("action_range", VFloat 1) ] in
  let alg_params :=
    match alg_params !! "net_list" with
    | None =>
        let num_hidden_layer := 4%nat in
        let hidden_dim := 64%Z in
        <["net_list" := VNets (net_list e num_hidden_layer hidden_dim)]>
          alg_params
    | Some _ => alg_params
    end in
  let alg_params :=
    match alg_params !! "optimizers_list" with
    | None =>
        let q_lr := (3 # 10000)%Q in
        let policy_lr := (3 # 10000)%Q in
        <["optimizers_list" :=
            VOptimizers [Adam q_lr; Adam q_lr; Adam policy_lr]]> alg_params
    | Some _ => alg_params
    end in
  let learn_params : gmap string value := list_to_map [
    ("max_steps", VInt 150);
    ("batch_size", VInt 64);
    ("explore_steps", VInt 500);
    ("update_itr", VInt 3);
    ("reward_scale", VFloat 1);
    ("explore_noise_scale", VFloat 1);
    ("eval_noise_scale", VFloat (1 # 2));
    ("train_episodes", VInt 1000);
    ("test_episodes", VInt 10);
    ("save_interval", VInt 100) ] in
  Ok {| seeded := seeded; alg_params := alg_params;
        learn_params := learn_params |})).

Definition box2d (e : env) (default_seed : bool) : result tables :=
  let seeded := if default_seed then Some 2%Z else None in
  bind (first (observation_space e)) (fun state_dim =>
  bind (first (action_space e)) (fun action_dim =>
  let alg_params : gmap string value := list_to_map [
    ("state_dim", VInt state_dim);
    ("action_dim", VInt action_dim);
    ("replay_buffer_capacity", VFloat 500000);
    ("policy_target_update_interval", VInt 5);
    ("action_range", VFloat 1) ] in
  let alg_params :=
    match alg_params !! "net_list" with
    | None =>
        let num_hidden_layer := 4%nat in
        let hidden_dim := 64%Z in
        <["net_list" := VNets (net_list e num_hidden_layer hidden_dim)]>
          alg_params
    | Some _ => alg_params
    end in
  let alg_params :=
    match alg_params !! "optimizers_list" with
    | None =>
        let q_lr := (3 # 10000)%Q in
        let policy_lr := (3 # 10000)%Q in
        <["optimizers_list" :=
            VOptimizers [Adam q_lr; Adam q_lr; Adam policy_lr]]> alg_params
    | Some _ => alg_params
    end in
  let learn_params : gmap string value := list_to_map [
    ("max_steps", VInt 150);
    ("batch_size", VInt 64);
    ("explore_steps", VInt 500);
    ("update_itr", VInt 3);
    ("reward_scale", VFloat 1);
    ("explore_noise_scale", VFloat 1);
    ("eval_noise_scale", VFloat (1 # 2));
    ("train_episodes", VInt 1000);
    ("test_episodes", VInt 10);
    ("save_interval", VInt 100) ] in
  Ok {| seeded := seeded; alg_params := alg_params;
        learn_params := learn_params |})).

Definition mujoco (e : env) (default_seed : bool) : result tables :=
  let seeded := if default_seed then Some 2%Z else None in
  bind (first (observation_space e)) (fun state_dim =>
  bind (first (action_space e)) (fun action_dim =>
  let alg_params : gmap string value := list_to_map [
    ("state_dim", VInt state_dim);
    ("action_dim", VInt action_dim);
    ("replay_buffer_capacity", VFloat 500000);
    ("policy_target_update_interval", VInt 5);
    ("action_range", VFloat 1) ] in
  let alg_params :=
    match alg_params !! "net_list" with
    | None =>
        let num_hidden_layer := 4%nat in
        let hidden_dim := 64%Z in
        <["net_list" := VNets (net_list e num_hidden_layer hidden_dim)]>
          alg_params
    | Some _ => alg_params
    end in
  let alg_params :=
    match alg_params !! "optimizers_list" with
    | None =>
        let q_lr := (3 # 10000)%Q in
        let policy_lr := (3 # 10000)%Q in
        <["optimizers_list" :=
            VOptimizers [Adam q_lr; Adam q_lr; Adam policy_lr]]> alg_params
    | Some _ => alg_params
    end in
  let learn_params : gmap string value := list_to_map [
    ("max_steps", VInt 150);
    ("batch_size", VInt 64);
    ("explore_steps", VInt 500);
    ("update_itr", VInt 3);
    ("reward_scale", VFloat 1);
    ("explore_noise_scale", VFloat 1);
    ("eval_noise_scale", VFloat (1 # 2));
    ("train_episodes", VInt 1000);
    ("test_episodes", VInt 10);
    ("save_interval", VInt 100) ] in
  Ok {| seeded := seeded; alg_params := alg_params;
        learn_params := learn_params |})).

Definition robotics (e : env) (default_seed : bool) : result tables :=
  let seeded := if default_seed then Some 2%Z else None in
  bind (first (observation_space e)) (fun state_dim =>
  bind (first (action_space e)) (fun action_dim =>
  let alg_params : gmap string value := list_to_map [
    ("state_dim", VInt state_dim);
    ("action_dim", VInt action_dim);
    ("replay_buffer_capacity", VFloat 500000);
    ("policy_target_update_interval", VInt 5);
    ("action_range", VFloat 1) ] in
  let alg_params :=
    match alg_params !! "net_list" with
    | None =>
        let num_hidden_layer := 4%nat in
        let hidden_dim := 64%Z in
        <["net_list" := VNets (net_list e num_hidden_layer hidden_dim)]>
          alg_params
    | Some _ => alg_params
    end in
  let alg_params :=
    match alg_params !! "optimizers_list" with
    | None =>
        let q_lr := (3 # 10000)%Q in
        let policy_lr := (3 # 10000)%Q in
        <["optimizers_list" :=
            VOptimizers [Adam q_lr; Adam q_lr; Adam policy_lr]]> alg_params
    | Some _ => alg_params
    end in
  let learn_params : gmap string value := list_to_map [
    ("max_steps", VInt 150);
    ("batch_size", VInt 64);
    ("explore_steps", VInt 500);
    ("update_itr", VInt 3);
    ("reward_scale", VFloat 1);
    ("explore_noise_scale", VFloat 1);
    ("eval_noise_scale", VFloat (1 # 2));
    ("train_episodes", VInt 1000);
    ("test_episodes", VInt 10);
    ("save_interval", VInt 100) ] in
  Ok {| seeded := seeded; alg_params := alg_params;
        learn_params := learn_params |})).

Definition dm_control (e : env) (default_seed : bool) : result tables :=
  let seeded := if default_seed then Some 2%Z else None in
  bind (first (observation_space e)) (fun state_dim =>
  bind (first (action_space e)) (fun action_dim =>
  let alg_params : gmap string value := list_to_map [
    ("state_dim", VInt state_dim);
    ("action_dim", VInt action_dim);
    ("replay_buffer_capacity", VFloat 500000);
    ("policy_target_update_interval", VInt 5);
    ("action_range", VFloat 1) ] in
  let alg_params :=
    match alg_params !! "net_list" with
    | None =>
        let num_hidden_layer := 4%nat in
        let hidden_dim := 64%Z in
        <["net_list" := VNets (net_list e num_hidden_layer hidden_dim)]>
          alg_params
    | Some _ => alg_params
    end in
  let alg_params :=
    match alg_params !! "optimizers_list" with
    | None =>
        let q_lr := (3 # 10000)%Q in
        let policy_lr := (3 # 10000)%Q in
        <["optimizers_list" :=
            VOptimizers [Adam q_lr; Adam q_lr; Adam policy_lr]]> alg_params
    | Some _ => alg_params
    end in
  let learn_params : gmap string value := list_to_map [
    ("max_steps", VInt 150);
    ("batch_size", VInt 64);
    ("explore_steps", VInt 500);
    ("update_itr", VInt 3);
    ("reward_scale", VFloat 1);
    ("explore_noise_scale", VFloat 1);
    ("eval_noise_scale", VFloat (1 # 2));
    ("train_episodes", VInt 1000);
    ("test_episodes", VInt 10);
    ("save_interval", VInt 100) ] in
  Ok {| seeded := seeded; alg_params := alg_params;
        learn_params := learn_params |})).

Definition rlbench (e : env) (default_seed : bool) : result tables :=
  let seeded := if default_seed then Some 2%Z else None in
  bind (first (observation_space e)) (fun state_dim =>
  bind (first (action_space e)) (fun action_dim =>
  let alg_params : gmap string value := list_to_map [
    ("state_dim", VInt state_dim);
    ("action_dim", VInt action_dim);
    ("replay_buffer_capacity", VFloat 500000);
    ("policy_target_update_interval", VInt 5);
    ("action_range", VFloat (1 # 10)) ] in
  let alg_params :=
    match alg_params !! "net_list" with
    | None =>
        let num_hidden_layer := 4%nat in
        let hidden_dim := 64%Z in
        <["net_list" := VNets (net_list e num_hidden_layer hidden_dim)]>
          alg_params
    | Some _ => alg_params
    end in
  let alg_params :=
    match alg_params !! "optimizers_list" with
    | None =>
        let q_lr := (3 # 10000)%Q in
        let policy_lr := (3 # 10000)%Q in
        <["optimizers_list" :=
            VOptimizers [Adam q_lr; Adam q_lr; Adam policy_lr]]> alg_params
    | Some _ => alg_params
    end in
  let learn_params : gmap string value := list_to_map [
    ("max_steps", VInt 150);
    ("batch_size", VInt 64);
    ("explore_steps", VInt 500);
    ("update_itr", VInt 3);
    ("reward_scale", VFloat 1);
    ("explore_noise_scale", VFloat 1);
    ("eval_noise_scale", VFloat (1 # 2));
    ("train_episodes", VInt 1000);
    ("test_episodes", VInt 10);
    ("save_interval", VInt 100) ] in
  Ok {| seeded := seeded; alg_params := alg_params;
        learn_params := learn_params |})).

End TD3.

(** ** Reading traces of [learn] *)

Module Trace.
Section trace.
Context {Obs Act : Type}.

(** The reward returned by a call of [env.step]. *)
Definition step_reward (ev : @PG.event Obs Act) : option R :=
  match ev with
  | PG.EnvStep _ _ reward _ => Some reward
  | _ => None
  end.

(** Events of training: sampled actions, stored transitions, updates,
    checkpoints written and the plot of the log. *)
Definition is_training (ev : @PG.event Obs Act) : bool :=
  match ev with
  | PG.ChooseAction false _ | PG.StoreTransition _ _ _ | PG.Update _
  | PG.Save | PG.PlotSaveLog _ _ _ => true
  | _ => false
  end.

Definition is_render (ev : @PG.event Obs Act) : bool :=
  match ev with
  | PG.EnvRender => true
  | _ => false
  end.

(** How many events of a kind a trace holds. *)
Definition count (kind : @PG.event Obs Act -> bool)
    (tr : list (@PG.event Obs Act)) : nat :=
  length (List.filter kind tr).

Definition is_reset (ev : @PG.event Obs Act) : bool :=
  match ev with PG.EnvReset => true | _ => false end.

Definition is_step (ev : @PG.event Obs Act) : bool :=
  match ev with PG.EnvStep _ _ _ _ => true | _ => false end.

Definition is_store (ev : @PG.event Obs Act) : bool :=
  match ev with PG.StoreTransition _ _ _ => true | _ => false end.

Definition is_update (ev : @PG.event Obs Act) : bool :=
  match ev with PG.Update _ => true | _ => false end.

End trace.
End Trace.

(** ** The tables of [dqn/default.py] *)

Module DQNDefault.

(** A network is described by the constructor call that builds it; the
    constructors only test the truth value of their [dueling] argument.
    [UserNetwork] and [UserOptimizer] stand for objects passed in by the
    caller. *)
Inductive network : Type :=
| CNNQNet (in_dim : list Z) (act_dim : Z) (dueling : bool)
| MLPQNet (in_dim : Z) (act_dim : Z) (dueling : bool)
| UserNetwork (name : string).

Inductive optimizer : Type :=
| Adam (learning_rate epsilon : Q) (clipnorm : option Q)
| UserOptimizer (name : string).

Inductive value : Type :=
| VNone
| VBool (b : bool)
| VInt (n : Z)
| VFloat (x : Q)
| VNetwork (net : network)
| VOptimizer (opt : optimizer).

Definition truthy (v : value) : bool :=
  match v with
  | VNone => false
  | VBool b => b
  | VInt n => negb (n =? 0)%Z
  | VFloat x => negb (Qeq_bool x 0)
  | VNetwork _ | VOptimizer _ => true
  end.

(** [d.get(key) is None]: the key is missing, or bound to [None]. *)
Definition get_is_none (d : gmap string value) (key : string) : bool :=
  match d !! key with
  | None | Some VNone => true
  | Some _ => false
  end.

Inductive error : Type :=
| KeyError
| IndexError.

Inductive outcome (A : Type) : Type :=
| Return (a : A)
| Throw (e : error).
Arguments Return {A} a.
Arguments Throw {A} e.

(** [d.pop(key)]: the value and the dictionary without the key;
    [KeyError] when the key is missing. *)
Definition pop (d : gmap string value) (key : string)
  : outcome (value * gmap string value) :=
  match d !! key with
  | Some v => Return (v, delete key d)
  | None => Throw KeyError
  end.

(** [observation_space.shape] and [action_space.n]. *)
Record env : Type := {
  observation_shape : list Z;
  action_n : Z;
}.

Definition atari (e : env) (kwargs : gmap string value)
  : outcome (gmap string value * gmap string value) :=
  let in_dim := observation_shape e in
  let act_dim := action_n e in
  let params : gmap string value := list_to_map [
    ("batch_size", VInt 32);
    ("double_q", VBool true);
    ("buffer_size", VInt 10000);
    ("exploration_rate", VFloat (1 # 10));
    ("exploration_final_eps", VFloat (1 # 100));
    ("train_freq", VInt 4);
    ("learning_starts", VInt 10000);
    ("target_network_update_freq", VInt 1000);
    ("gamma", VFloat (99 # 100));
    ("prioritized_replay", VBool true);
    ("prioritized_alpha", VFloat (6 # 10));
    ("prioritized_beta0", VFloat (4 # 10));
    ("dueling", VBool true) ] in
  (* params.update(kwargs) *)
  let params := kwargs ∪ params in
  match
    (if get_is_none params "network" then
       match pop params "dueling" with
       | Return (dueling, params) =>
           Return (<["network" :=
                       VNetwork (CNNQNet in_dim act_dim (truthy dueling))]> params)
       | Throw err => Throw err
       end
     else Return params)
  with
  | Throw err => Throw err
  | Return params =>
      let params :=
        if get_is_none params "optimizer" then
          <["optimizer" :=
              VOptimizer (Adam (1 # 10000) (1 # 100000) (Some 10%Q))]> params
        else params in
      Return (∅, params)
  end.

Definition classic_control (e : env) (kwargs : gmap string value)
  : outcome (gmap string value * gmap string value) :=
  match observation_shape e !! 0%nat with
  | None => Throw IndexError
  | Some in_dim =>
      let act_dim := action_n e in
      let params : gmap string value := list_to_map [
        ("batch_size", VInt 32);
        ("double_q", VBool true);
        ("buffer_size", VInt 1000);
        ("exploration_rate", VFloat (2 # 10));
        ("exploration_final_eps", VFloat (1 # 100));
        ("train_freq", VInt 4);
        ("learning_starts", VInt 200);
        ("target_network_update_freq", VInt 50);
        ("gamma", VFloat (99 # 100));
        ("prioritized_replay", VBool false);
        ("prioritized_alpha", VFloat (6 # 10));
        ("prioritized_beta0", VFloat (4 # 10));
        ("dueling", VBool true) ] in
      let params := kwargs ∪ params in
      match
        (if get_is_none params "network" then
           match pop params "dueling" with
           | Return (dueling, params) =>
               Return (<["network" :=
                           VNetwork (MLPQNet in_dim act_dim (truthy dueling))]>
                         params)
           | Throw err => Throw err
           end
         else Return params)
      with
      | Throw err => Throw err
      | Return params =>
          let params :=
            if get_is_none params "optimizer" then
              <["optimizer" :=
                  VOptimizer (Adam (5 # 1000) (1 # 100000) None)]> params
            else params in
          Return (∅, params)
      end
  end.

End DQNDefault.

(** * Properties *)

Section discount_facts.
Open Scope R_scope.

Lemma discounted_returns_length gamma r :
  length (discounted_returns gamma r) = length r.
Proof. induction r as [|x r IH]; simpl; congruence. Qed.

Lemma hd_drop_lookup (l : list R) k :
  hd 0 (drop k l) = default 0 (l !! k).
Proof.
  revert k; induction l as [|x l IH]; intros [|k]; simpl; auto.
Qed.

(** The recurrence, read at an index. *)
Lemma discounted_returns_lookup gamma r t r_t :
  r !! t = Some r_t ->
  discounted_returns gamma r !! t
  = Some (r_t + gamma * default 0 (discounted_returns gamma r !! S t)).
Proof.
  revert t; induction r as [|x r IH]; intros [|t] Ht; simpl in *; try discriminate.
  - injection Ht as ->. f_equal. f_equal. f_equal.
    destruct (discounted_returns gamma r); reflexivity.
  - apply IH, Ht.
Qed.

Lemma insert_replicate_drop (D : list R) k v :
  D !! k = Some v ->
  <[k := v]> (replicate (S k) 0 ++ drop (S k) D) = replicate k 0 ++ drop k D.
Proof.
  revert D; induction k as [|k IH]; intros [|x D] H; simpl in *; try discriminate.
  - injection H as ->. reflexivity.
  - f_equal. apply IH, H.
Qed.

(** Loop invariant: when the indices below [k] remain, the array holds the
    returns from [k] on and zeros before, and [running_add] is the return
    at [k]. *)
Lemma discount_loop_inv gamma r k :
  (k <= length r)%nat ->
  let D := discounted_returns gamma r in
  discount_loop r gamma (reversed_range k) (hd 0 (drop k D))
    (replicate k 0 ++ drop k D) = Ok D.
Proof.
  intros Hk D. induction k as [|k IH].
  - reflexivity.
  - unfold reversed_range. rewrite seq_S, reverse_snoc.
    change (0 + k)%nat with k. cbn [discount_loop].
    destruct (lookup_lt_is_Some_2 r k ltac:(lia)) as [r_t Hr].
    rewrite Hr.
    pose proof (discounted_returns_lookup gamma r k r_t Hr) as HD.
    fold D in HD.
    rewrite bool_decide_true.
    2:{ rewrite length_app, length_replicate. lia. }
    rewrite hd_drop_lookup.
    replace (default 0 (D !! S k) * gamma + r_t)
      with (r_t + gamma * default 0 (D !! S k)) by lra.
    rewrite (insert_replicate_drop D k _ HD).
    replace (r_t + gamma * default 0 (D !! S k)) with (hd 0 (drop k D)).
    + apply IH. lia.
    + rewrite hd_drop_lookup, HD. reflexivity.
Qed.

Lemma discount_rewards_spec gamma r :
  discount_rewards r gamma = Ok (discounted_returns gamma r).
Proof.
  unfold discount_rewards, np_zeros_like.
  pose proof (discount_loop_inv gamma r (length r) (le_n _)) as H.
  simpl in H.
  rewrite drop_ge in H by (rewrite discounted_returns_length; lia).
  rewrite app_nil_r in H. exact H.
Qed.

End discount_facts.

Section normalize_facts.
Open Scope R_scope.

Lemma np_sum_centre (l : list R) m :
  np_sum (map (fun x => x - m) l) = np_sum l - INR (length l) * m.
Proof.
  induction l as [|x l IH].
  - simpl. lra.
  - change (np_sum (map (fun x => x - m) (x :: l)))
      with ((x - m) + np_sum (map (fun x => x - m) l)).
    change (np_sum (x :: l)) with (x + np_sum l).
    rewrite IH, length_cons, S_INR. lra.
Qed.

Lemma INR_length_nonzero {A} (l : list A) : l <> [] -> INR (length l) <> 0.
Proof.
  intros H. destruct l as [|a l]; [congruence|].
  rewrite length_cons. apply not_0_INR. lia.
Qed.

(** After [discounted_ep_rs -= np.mean(discounted_ep_rs)] the mean is zero. *)
Lemma np_mean_centred (l : list R) :
  l <> [] -> np_mean (map (fun x => x - np_mean l) l) = 0.
Proof.
  intros H. pose proof (INR_length_nonzero l H) as Hn.
  unfold np_mean at 1. rewrite np_sum_centre, length_map.
  unfold np_mean. field. exact Hn.
Qed.

(** Hence the deviation of the centred array is that of the array. *)
Lemma np_std_centred (l : list R) :
  l <> [] -> np_std (map (fun x => x - np_mean l) l) = np_std l.
Proof.
  intros H. unfold np_std at 1.
  rewrite (np_mean_centred l H), map_map.
  unfold np_std. f_equal. f_equal.
  apply map_ext. intros x. rewrite Rminus_0_r. reflexivity.
Qed.

Lemma normalize_spec (l : list R) :
  l <> [] ->
  normalize l = map (fun x => np_div (x - np_mean l) (np_std l)) l.
Proof.
  intros H. unfold normalize.
  rewrite (np_std_centred l H), map_map. reflexivity.
Qed.

Lemma np_mean_replicate n v : (0 < n)%nat -> np_mean (replicate n v) = v.
Proof.
  intros Hn. unfold np_mean. rewrite length_replicate.
  assert (Hs : np_sum (replicate n v) = INR n * v).
  { clear Hn. induction n as [|n IH].
    - simpl. lra.
    - change (np_sum (replicate (S n) v)) with (v + np_sum (replicate n v)).
      rewrite IH, S_INR. lra. }
  rewrite Hs. field. apply not_0_INR. lia.
Qed.

(** A constant array has deviation zero. *)
Lemma np_std_replicate n v : (0 < n)%nat -> np_std (replicate n v) = 0.
Proof.
  intros Hn. unfold np_std.
  rewrite (np_mean_replicate n v Hn).
  assert (Hm : map (fun x => Rabs (x - v) ^ 2) (replicate n v) = replicate n 0).
  { clear Hn. induction n as [|n IH]; simpl; [reflexivity|].
    simpl in IH. rewrite IH. f_equal.
    replace (v - v) with 0 by lra. rewrite Rabs_R0. lra. }
  rewrite Hm, (np_mean_replicate n 0 Hn). apply sqrt_0.
Qed.

Lemma np_div_zero x : np_div x 0 = NonFinite.
Proof. unfold np_div. destruct (Req_dec_T 0 0); [reflexivity|congruence]. Qed.

Lemma all_equal_replicate (l : list R) v :
  Forall (fun x => x = v) l -> l = replicate (length l) v.
Proof. induction 1 as [|x l -> _ IH]; simpl; [reflexivity|]. f_equal. exact IH. Qed.

(** Normalising a non-empty constant array divides every entry by zero. *)
Lemma normalize_constant (l : list R) v :
  l <> [] -> Forall (fun x => x = v) l ->
  normalize l = replicate (length l) NonFinite.
Proof.
  intros Hne Hall.
  assert (Hlen : (0 < length l)%nat) by (destruct l; [congruence|simpl; lia]).
  rewrite (normalize_spec l Hne). clear Hne.
  pose proof (all_equal_replicate l v Hall) as E. clear Hall.
  revert E Hlen. generalize (length l) as n. intros n -> Hlen.
  rewrite (np_std_replicate n v Hlen). clear Hlen.
  generalize (np_mean (replicate n v)) as m. intros m.
  induction n as [|n IH]; simpl; [reflexivity|].
  rewrite np_div_zero. f_equal. exact IH.
Qed.

End normalize_facts.

Section discount_and_norm.
Open Scope R_scope.

(** C6.  The division by [np.std] is not guarded.  For every reward list
    of length one, and for every non-empty list whose discounted returns
    are all equal, the deviation is zero, the function still returns, and
    every entry of the returned array is the outcome of a division by
    zero, not a finite number. *)
Theorem discount_and_norm_rewards_zero_std :
  (forall (x gamma : R),
     _discount_and_norm_rewards [x] gamma = Ok [NonFinite]) /\
  (forall (r : list R) (gamma v : R),
     r <> [] ->
     Forall (fun x => x = v) (discounted_returns gamma r) ->
     np_std (discounted_returns gamma r) = 0 /\
     _discount_and_norm_rewards r gamma = Ok (replicate (length r) NonFinite)).
Proof.
  assert (Hgen : forall (r : list R) (gamma v : R),
     r <> [] ->
     Forall (fun x => x = v) (discounted_returns gamma r) ->
     np_std (discounted_returns gamma r) = 0 /\
     _discount_and_norm_rewards r gamma = Ok (replicate (length r) NonFinite)).
  { intros r gamma v Hr Hall.
    pose proof (discounted_returns_length gamma r) as Hlen.
    assert (Hpos : (0 < length r)%nat) by (destruct r; [congruence|simpl; lia]).
    split.
    - rewrite (all_equal_replicate _ v Hall), Hlen.
      apply np_std_replicate, Hpos.
    - unfold _discount_and_norm_rewards. rewrite discount_rewards_spec.
      rewrite (normalize_constant _ v); [rewrite Hlen; reflexivity| |exact Hall].
      intros E. rewrite E in Hlen. simpl in Hlen. lia. }
  split; [|exact Hgen].
  intros x gamma.
  destruct (Hgen [x] gamma (x + gamma * 0)) as [_ H].
  - discriminate.
  - simpl. repeat constructor.
  - exact H.
Qed.

Lemma discount_and_norm_rewards_zero_std_witness :
  [1; 1] <> [] /\
  Forall (fun x => x = 1) (discounted_returns 0 [1; 1]) /\
  np_std (discounted_returns 0 [1; 1]) = 0 /\
  _discount_and_norm_rewards [1; 1] 0 = Ok [NonFinite; NonFinite].
Proof.
  assert (Hne : [1; 1] <> ([] : list R)) by discriminate.
  assert (Hall : Forall (fun x => x = 1) (discounted_returns 0 [1; 1])).
  { simpl. repeat constructor; lra. }
  split; [exact Hne|]. split; [exact Hall|].
  exact (proj2 discount_and_norm_rewards_zero_std [1; 1] 0 1 Hne Hall).
Defined.

End discount_and_norm.

(** ** Running the methods of [PG] *)

Section pg_runs.
Open Scope R_scope.
Context {E Obs Act Model Opt Rng Files : Type}.
Context `{!Env E Obs Act} `{!Framework Obs Act Model Opt Rng Files}.

Local Abbreviation M := (@PG.M E Obs Act Model Opt Rng Files).
Local Abbreviation state := (@PG.state E Obs Act Model Opt Rng Files).
Local Abbreviation event := (@PG.event Obs Act).

Lemma bind_run {A B} (m : M A) (k : A -> M B) st a st1 tr1 r st2 tr2 :
  m st = (Ok a, st1, tr1) ->
  k a st1 = (r, st2, tr2) ->
  PG.bind m k st = (r, st2, tr1 ++ tr2).
Proof. intros Hm Hk. unfold PG.bind. rewrite Hm, Hk. reflexivity. Qed.

Lemma bind_raise {A B} (m : M A) (k : A -> M B) st e st1 tr1 :
  m st = (Raise e, st1, tr1) ->
  PG.bind m k st = (Raise e, st1, tr1).
Proof. intros Hm. unfold PG.bind. rewrite Hm. reflexivity. Qed.

Lemma reset_run (st : state) :
  PG.reset st
  = (Ok (snd (env_reset (PG.env st))),
     {| PG.self := PG.self st; PG.env := fst (env_reset (PG.env st));
        PG.rng := PG.rng st; PG.files := PG.files st |},
     [PG.EnvReset]).
Proof.
  unfold PG.reset, PG.bind, PG.emit, PG.get, PG.put, PG.ret.
  destruct (env_reset (PG.env st)) as [env' o]. reflexivity.
Qed.

Lemma render_env_run (st : state) :
  PG.render_env st
  = (Ok tt,
     {| PG.self := PG.self st; PG.env := env_render (PG.env st);
        PG.rng := PG.rng st; PG.files := PG.files st |},
     [PG.EnvRender]).
Proof. reflexivity. Qed.

Lemma step_run (st : state) (action : Act) :
  PG.step action st
  = (let '(o, r, d) := snd (env_step (PG.env st) action) in
     (Ok (o, r, d),
      {| PG.self := PG.self st; PG.env := fst (env_step (PG.env st) action);
         PG.rng := PG.rng st; PG.files := PG.files st |},
      [PG.EnvStep action o r d])).
Proof.
  unfold PG.step, PG.bind, PG.emit, PG.get, PG.put, PG.ret.
  destruct (env_step (PG.env st) action) as [env' [[o r] d]]. reflexivity.
Qed.

Lemma choose_action_run (st : state) (s : Obs) :
  PG.choose_action s st
  = (Ok (fst (model_sample (PG.model (PG.self st)) (PG.rng st) s)),
     {| PG.self := PG.self st; PG.env := PG.env st;
        PG.rng := snd (model_sample (PG.model (PG.self st)) (PG.rng st) s);
        PG.files := PG.files st |},
     [PG.ChooseAction false s]).
Proof.
  unfold PG.choose_action, PG.bind, PG.emit, PG.get, PG.put, PG.ret.
  destruct (model_sample _ _ _) as [a rng']. reflexivity.
Qed.

Lemma choose_action_greedy_run (st : state) (s : Obs) :
  PG.choose_action_greedy s st
  = (Ok (model_greedy (PG.model (PG.self st)) s), st, [PG.ChooseAction true s]).
Proof. reflexivity. Qed.

Lemma store_transition_run (st : state) s a r :
  PG.store_transition s a r st
  = (Ok tt,
     {| PG.self :=
          {| PG.name := PG.name (PG.self st); PG.model := PG.model (PG.self st);
             PG.buffer := PG.buffer (PG.self st) ++ [(s, a, r)];
             PG.optimizer := PG.optimizer (PG.self st) |};
        PG.env := PG.env st; PG.rng := PG.rng st; PG.files := PG.files st |},
     [PG.StoreTransition s a r]).
Proof. reflexivity. Qed.

Lemma discount_and_norm_rewards_ok (r : list R) (gamma : R) :
  _discount_and_norm_rewards r gamma
  = Ok (normalize (discounted_returns gamma r)).
Proof.
  unfold _discount_and_norm_rewards. rewrite discount_rewards_spec. reflexivity.
Qed.

(** [update] on an empty buffer fails while unpacking, before any
    gradient is taken. *)
Lemma update_empty_run (st : state) gamma :
  PG.buffer (PG.self st) = [] ->
  PG.update gamma st = (Raise ValueError, st, [PG.Update gamma]).
Proof.
  intros Hb. unfold PG.update, PG.bind, PG.emit, PG.get, PG.lift.
  rewrite Hb. reflexivity.
Qed.

(** [update] on a non-empty buffer takes one gradient step and leaves the
    buffer empty. *)
Lemma update_run (st : state) gamma :
  PG.buffer (PG.self st) <> [] ->
  let b := PG.buffer (PG.self st) in
  let norm := normalize (discounted_returns gamma (map snd b)) in
  let mo := gradient_step (PG.model (PG.self st)) (PG.optimizer (PG.self st))
              (map (fun x => fst (fst x)) b) (map (fun x => snd (fst x)) b) norm in
  PG.update gamma st
  = (Ok norm,
     {| PG.self :=
          {| PG.name := PG.name (PG.self st); PG.model := fst mo;
             PG.buffer := []; PG.optimizer := snd mo |};
        PG.env := PG.env st; PG.rng := PG.rng st; PG.files := PG.files st |},
     [PG.Update gamma]).
Proof.
  intros Hb b norm mo. subst mo norm b.
  unfold PG.update, PG.bind, PG.emit, PG.get, PG.lift, PG.unzip_buffer.
  destruct (PG.buffer (PG.self st)) as [|x b] eqn:Eb; [congruence|].
  rewrite discount_and_norm_rewards_ok.
  destruct (gradient_step _ _ _ _ _) as [m' o']. reflexivity.
Qed.

Lemma save_run (st : state) :
  PG.save st
  = (Ok tt,
     {| PG.self := PG.self st; PG.env := PG.env st; PG.rng := PG.rng st;
        PG.files := save_model (PG.model (PG.self st)) "policy"
                      (PG.name (PG.self st)) (PG.files st) |},
     [PG.Save]).
Proof. reflexivity. Qed.

Lemma load_ckpt_run (st : state) :
  PG.load_ckpt st
  = (Ok tt,
     {| PG.self :=
          {| PG.name := PG.name (PG.self st);
             PG.model := load_model (PG.model (PG.self st)) "policy"
                           (PG.name (PG.self st)) (PG.files st);
             PG.buffer := PG.buffer (PG.self st);
             PG.optimizer := PG.optimizer (PG.self st) |};
        PG.env := PG.env st; PG.rng := PG.rng st; PG.files := PG.files st |},
     [PG.LoadCkpt]).
Proof. reflexivity. Qed.

(** The bare [except] makes the accumulator update total: an unbound
    accumulator is initialised with the episode's reward sum, a bound one
    is averaged; nothing is raised, printed or changed. *)
Lemma update_running_reward_run (st : state) (running_reward : option R) ep_rs_sum :
  PG.update_running_reward running_reward ep_rs_sum st
  = (Ok (match running_reward with
         | None => ep_rs_sum
         | Some prev => prev * 0.99 + ep_rs_sum * 0.01
         end), st, []).
Proof. destruct running_reward; reflexivity. Qed.

End pg_runs.

(** ** What the loops of [learn] can emit, whatever their outcome *)

Section pg_emits.
Open Scope R_scope.
Context {E Obs Act Model Opt Rng Files : Type}.
Context `{!Env E Obs Act} `{!Framework Obs Act Model Opt Rng Files}.

Local Abbreviation M := (@PG.M E Obs Act Model Opt Rng Files).
Local Abbreviation state := (@PG.state E Obs Act Model Opt Rng Files).
Local Abbreviation event := (@PG.event Obs Act).

Variable P : event -> Prop.

Lemma emits_bind {A B} (m : M A) (k : A -> M B) st :
  Forall P (snd (m st)) ->
  (forall a st1, Forall P (snd (k a st1))) ->
  Forall P (snd (PG.bind m k st)).
Proof.
  intros Hm Hk. unfold PG.bind.
  destruct (m st) as [[[a|e] st1] tr1]; simpl in *; [|exact Hm].
  specialize (Hk a st1). destruct (k a st1) as [[r st2] tr2]; simpl in *.
  apply Forall_app; split; assumption.
Qed.

Lemma emits_lift {A} (r : result A) (st : state) :
  Forall P (snd (PG.lift r st)).
Proof. constructor. Qed.

Lemma emits_emit (ev : event) (st : state) :
  P ev -> Forall P (snd (PG.emit ev st)).
Proof. intros H. repeat constructor. exact H. Qed.

Lemma step_emits (st : state) action :
  (forall o r d, P (PG.EnvStep action o r d)) ->
  Forall P (snd (PG.step action st)).
Proof.
  intros H. rewrite step_run. destruct (snd (env_step _ _)) as [[o r] d].
  repeat constructor. apply H.
Qed.

Lemma update_emits (st : state) gamma :
  P (PG.Update gamma) -> Forall P (snd (PG.update gamma st)).
Proof.
  intros H. destruct (PG.buffer (PG.self st)) as [|x b] eqn:Eb.
  - rewrite (update_empty_run st gamma Eb). repeat constructor. exact H.
  - rewrite (update_run st gamma) by congruence. repeat constructor. exact H.
Qed.

Lemma save_if_due_emits (st : state) a i :
  P PG.Save -> Forall P (snd (PG.save_if_due a i st)).
Proof.
  intros H. unfold PG.save_if_due. destruct (i =? 0)%Z; [constructor|].
  apply emits_bind; [apply emits_lift|]. intros m st1.
  destruct (m =? 0)%Z; repeat constructor. exact H.
Qed.

Section train.
Hypothesis P_episode : forall ev, PG.is_episode_event ev = true -> P ev.

Lemma train_steps_emits a steps : forall o s (st : state),
  Forall P (snd (PG.train_steps a steps o s st)).
Proof using P_episode.
  induction steps as [|x steps IH]; intros o s st; [constructor|].
  cbn [PG.train_steps].
  apply emits_bind.
  { destruct (PG.render a); repeat constructor. apply P_episode; reflexivity. }
  intros _ st1. apply emits_bind.
  { rewrite choose_action_run. repeat constructor. apply P_episode; reflexivity. }
  intros action st2. apply emits_bind.
  { apply step_emits. intros; apply P_episode; reflexivity. }
  intros [[o_ r] d] st3. apply emits_bind.
  { repeat constructor. apply P_episode; reflexivity. }
  intros _ st4. destruct d; [constructor|apply IH].
Qed.

Lemma train_episode_emits a i l (st : state) :
  Forall P (snd (PG.train_episode a i l st)).
Proof using P_episode.
  unfold PG.train_episode.
  apply emits_bind.
  { rewrite reset_run. repeat constructor. apply P_episode; reflexivity. }
  intros o st1.
  apply emits_bind; [apply train_steps_emits|]. intros ep st2.
  apply emits_bind; [rewrite update_running_reward_run; constructor|].
  intros rr st3.
  apply emits_bind; [apply emits_emit, P_episode; reflexivity|]. intros _ st4.
  apply emits_bind; [apply update_emits, P_episode; reflexivity|]. intros _ st5.
  apply emits_bind; [apply save_if_due_emits, P_episode; reflexivity|].
  intros _ st6. constructor.
Qed.

Lemma train_loop_emits a episodes : forall l (st : state),
  Forall P (snd (PG.train_loop a episodes l st)).
Proof using P_episode.
  induction episodes as [|i episodes IH]; intros l st; [constructor|].
  cbn [PG.train_loop]. apply emits_bind; [apply train_episode_emits|].
  intros l' st1. apply IH.
Qed.

End train.

Section test.
Hypothesis P_test : forall ev, PG.is_test_event ev = true -> P ev.

Lemma test_steps_emits a steps : forall o s (st : state),
  Forall P (snd (PG.test_steps a steps o s st)).
Proof using P_test.
  induction steps as [|x steps IH]; intros o s st; [constructor|].
  cbn [PG.test_steps].
  apply emits_bind.
  { destruct (PG.render a); repeat constructor. apply P_test; reflexivity. }
  intros _ st1. apply emits_bind.
  { repeat constructor. apply P_test; reflexivity. }
  intros action st2. apply emits_bind.
  { apply step_emits. intros; apply P_test; reflexivity. }
  intros [[o_ r] d] st3. destruct d; [constructor|apply IH].
Qed.

Lemma test_episode_emits a i rr (st : state) :
  Forall P (snd (PG.test_episode a i rr st)).
Proof using P_test.
  unfold PG.test_episode.
  apply emits_bind.
  { rewrite reset_run. repeat constructor. apply P_test; reflexivity. }
  intros o st1.
  apply emits_bind; [apply test_steps_emits|]. intros ep st2.
  apply emits_bind; [rewrite update_running_reward_run; constructor|].
  intros rr' st3.
  apply emits_bind; [apply emits_emit, P_test; reflexivity|]. intros _ st4.
  constructor.
Qed.

Lemma test_loop_emits a episodes : forall rr (st : state),
  Forall P (snd (PG.test_loop a episodes rr st)).
Proof using P_test.
  induction episodes as [|i episodes IH]; intros rr st; [constructor|].
  cbn [PG.test_loop]. apply emits_bind; [apply test_episode_emits|].
  intros rr' st1. apply IH.
Qed.

End test.

End pg_emits.

(** ** Runs of the loops of [learn] that complete *)

Section pg_loops.
Open Scope R_scope.
Context {E Obs Act Model Opt Rng Files : Type}.
Context `{!Env E Obs Act} `{!Framework Obs Act Model Opt Rng Files}.

Local Abbreviation M := (@PG.M E Obs Act Model Opt Rng Files).
Local Abbreviation state := (@PG.state E Obs Act Model Opt Rng Files).
Local Abbreviation event := (@PG.event Obs Act).

(** Sequencing, in the style of a postcondition calculus: [Q] is
    established for the whole once it holds after the continuation. *)
Lemma bind_post {A B} (m : M A) (k : A -> M B) st a st1 tr1
    (Q : B -> state -> list event -> Prop) :
  m st = (Ok a, st1, tr1) ->
  (exists b st2 tr2, k a st1 = (Ok b, st2, tr2) /\ Q b st2 (tr1 ++ tr2)) ->
  exists b st2 tr, PG.bind m k st = (Ok b, st2, tr) /\ Q b st2 tr.
Proof.
  intros Hm (b & st2 & tr2 & Hk & HQ).
  exists b, st2, (tr1 ++ tr2). split; [|exact HQ].
  exact (bind_run m k st a st1 tr1 (Ok b) st2 tr2 Hm Hk).
Qed.

Lemma ret_post {A} (a : A) (st : state) (Q : A -> state -> list event -> Prop) :
  Q a st [] -> exists b st2 tr, PG.ret a st = (Ok b, st2, tr) /\ Q b st2 tr.
Proof. intros HQ. exists a, st, []. split; [reflexivity|exact HQ]. Qed.

Lemma render_if_run a (st : state) :
  (if PG.render a then PG.render_env else PG.ret tt) st
  = (Ok tt,
     {| PG.self := PG.self st;
        PG.env := if PG.render a then env_render (PG.env st) else PG.env st;
        PG.rng := PG.rng st; PG.files := PG.files st |},
     if PG.render a then [PG.EnvRender] else []).
Proof. destruct (PG.render a), st; reflexivity. Qed.

Lemma step_run' (st : state) (action : Act) :
  PG.step action st
  = (Ok (snd (env_step (PG.env st) action)),
     {| PG.self := PG.self st; PG.env := fst (env_step (PG.env st) action);
        PG.rng := PG.rng st; PG.files := PG.files st |},
     [PG.EnvStep action (fst (fst (snd (env_step (PG.env st) action))))
        (snd (fst (snd (env_step (PG.env st) action))))
        (snd (snd (env_step (PG.env st) action)))]).
Proof.
  rewrite step_run. destruct (snd (env_step _ _)) as [[o r] d]. reflexivity.
Qed.

(** The step loop of train mode always completes; it runs at most
    [length steps] iterations, stores a transition in each, and touches
    neither the files nor the model. *)
Lemma train_steps_run a steps : forall o s (st : state),
  exists ep st' tr,
    PG.train_steps a steps o s st = (Ok ep, st', tr) /\
    (PG.train_steps_trace a (length steps) tr /\
     (steps <> [] -> PG.buffer (PG.self st') <> []) /\
     PG.files st' = PG.files st).
Proof.
  induction steps as [|x steps IH]; intros o s st.
  - apply ret_post. split; [constructor|]. split; [congruence|reflexivity].
  - cbn [PG.train_steps].
    eapply bind_post; [apply render_if_run|].
    eapply bind_post; [apply choose_action_run|].
    eapply bind_post; [apply step_run'|].
    cbn [PG.self PG.env PG.rng PG.files PG.model].
    destruct (snd (env_step _ _)) as [[o_ r] d].
    eapply bind_post; [apply store_transition_run|].
    cbn [PG.self PG.env PG.rng PG.files PG.model PG.buffer fst snd].
    destruct d.
    + apply ret_post. split; [|split].
      * change (length (x :: steps)) with (S (length steps)).
        apply (PG.steps_done a (length steps) o _ o_ r).
      * intros _. cbn. intros Hnil. apply app_eq_nil in Hnil as [_ Hnil]. discriminate.
      * reflexivity.
    + match goal with |- context [PG.train_steps a steps o_ ?s' ?st'] =>
        destruct (IH o_ s' st') as (ep & st2 & tr & Hrun & Htr & Hbuf & Hfiles)
      end.
      exists ep, st2, tr. split; [exact Hrun|]. split; [|split].
      * change (length (x :: steps)) with (S (length steps)).
        pose proof (PG.steps_continue a (length steps) o
          (fst (model_sample (PG.model (PG.self st)) (PG.rng st) o)) o_ r tr Htr)
          as Hshape.
        unfold PG.train_iteration in Hshape.
        rewrite <- app_assoc in Hshape. exact Hshape.
      * intros _. destruct steps as [|y steps'].
        -- cbn in Hrun. injection Hrun as _ <- _. cbn.
           intros Hnil. apply app_eq_nil in Hnil as [_ Hnil]. discriminate.
        -- apply Hbuf. discriminate.
      * rewrite Hfiles. reflexivity.
Qed.

Lemma range_length lo hi : length (Py.range lo hi) = Z.to_nat (hi - lo).
Proof. unfold Py.range. rewrite length_map, length_seq. reflexivity. Qed.

Lemma range_from_one hi : Forall (fun i => i <> 0%Z) (Py.range 1 hi).
Proof.
  unfold Py.range. apply Forall_map, Forall_forall. intros k _. simpl. lia.
Qed.

Lemma range_nonempty lo hi : (lo < hi)%Z -> Py.range lo hi <> [].
Proof.
  intros H Hnil. apply (f_equal length) in Hnil.
  rewrite range_length in Hnil. simpl in Hnil. lia.
Qed.

Lemma train_steps_trace_quiet a n (tr : list event) :
  PG.train_steps_trace a n tr ->
  omap PG.printed_sum tr = [] /\ List.filter PG.is_file_io tr = [].
Proof.
  induction 1 as [|n s act s_ r|n s act s_ r tr _ [IH1 IH2]].
  - split; reflexivity.
  - unfold PG.train_iteration. destruct (PG.render a); split; reflexivity.
  - unfold PG.train_iteration. rewrite omap_app, List.filter_app, IH1, IH2.
    destruct (PG.render a); split; reflexivity.
Qed.

Lemma save_if_due_run a i (st : state) :
  i <> 0%Z -> PG.save_interval a <> 0%Z ->
  exists st',
    PG.save_if_due a i st
    = (Ok tt, st', if (i mod PG.save_interval a =? 0)%Z then [PG.Save] else []) /\
    PG.buffer (PG.self st') = PG.buffer (PG.self st).
Proof.
  intros Hi Hs. unfold PG.save_if_due, Py.mod_.
  destruct (Z.eqb_spec i 0) as [|_]; [contradiction|].
  destruct (Z.eqb_spec (PG.save_interval a) 0) as [|_]; [contradiction|].
  unfold PG.bind, PG.lift.
  destruct (i mod PG.save_interval a =? 0)%Z.
  - rewrite save_run. eexists. split; reflexivity.
  - exists st. split; reflexivity.
Qed.

(** With a zero [save_interval] the modulo raises. *)
Lemma save_if_due_zero a i (st : state) :
  i <> 0%Z -> PG.save_interval a = 0%Z ->
  PG.save_if_due a i st = (Raise ZeroDivisionError, st, []).
Proof.
  intros Hi Hs. unfold PG.save_if_due, Py.mod_. rewrite Hs.
  destruct (Z.eqb_spec i 0) as [|_]; [contradiction|]. reflexivity.
Qed.

(** One episode of train mode, when at least one step is allowed and the
    checkpoint interval is not zero. *)
Lemma train_episode_run a i l (st : state) :
  (0 < PG.max_steps a)%Z -> PG.save_interval a <> 0%Z -> i <> 0%Z ->
  exists l' st' tr,
    PG.train_episode a i l st = (Ok l', st', tr) /\
    (PG.train_episode_trace a i tr /\
     exists ep_rs_sum,
       omap PG.printed_sum tr = [ep_rs_sum] /\
       let rr := match PG.running_reward l with
                 | None => ep_rs_sum
                 | Some p => 0.99 * p + 0.01 * ep_rs_sum
                 end in
       l' = {| PG.running_reward := Some rr;
               PG.reward_buffer := PG.reward_buffer l ++ [rr] |}).
Proof.
  intros Hms Hsi Hi. unfold PG.train_episode.
  eapply bind_post; [apply reset_run|].
  cbv beta.
  match goal with |- context [PG.bind (PG.train_steps a ?steps ?o ?s) _ ?st1] =>
    destruct (train_steps_run a steps o s st1)
      as (ep & st2 & steps_tr & Hrun & Hshape & Hbuf & _)
  end.
  eapply bind_post; [exact Hrun|].
  eapply bind_post; [apply update_running_reward_run|].
  eapply bind_post; [reflexivity|].
  assert (Hne : PG.buffer (PG.self st2) <> []).
  { apply Hbuf, range_nonempty. lia. }
  pose proof (update_run st2 (PG.gamma a) Hne) as Hupd. cbv zeta in Hupd.
  eapply bind_post; [exact Hupd|].
  cbv beta.
  match goal with |- context [PG.bind (PG.save_if_due a i) _ ?st3] =>
    destruct (save_if_due_run a i st3 Hi Hsi) as (st4 & Hsave & _)
  end.
  eapply bind_post; [exact Hsave|].
  apply ret_post.
  rewrite range_length, Z.sub_0_r in Hshape.
  destruct (train_steps_trace_quiet a _ _ Hshape) as [Hq _].
  split.
  - exists steps_tr, ep. split; [exact Hshape|].
    rewrite app_nil_r. reflexivity.
  - exists ep. split.
    + rewrite !omap_app, Hq.
      destruct (_ =? 0)%Z; reflexivity.
    + cbv zeta. destruct (PG.running_reward l) as [p|].
      * replace (0.99 * p + 0.01 * ep) with (p * 0.99 + ep * 0.01) by lra.
        reflexivity.
      * reflexivity.
Qed.

(** The episode loop of train mode. *)
Lemma train_loop_run a episodes :
  (0 < PG.max_steps a)%Z -> PG.save_interval a <> 0%Z ->
  Forall (fun i => i <> 0%Z) episodes ->
  forall l (st : state),
  exists l' st' eps,
    PG.train_loop a episodes l st = (Ok l', st', concat eps) /\
    Forall2 (PG.train_episode_trace a) episodes eps /\
    PG.reward_buffer l'
    = PG.reward_buffer l
      ++ PG.running_rewards (PG.running_reward l)
           (omap PG.printed_sum (concat eps)).
Proof.
  intros Hms Hsi Hall.
  induction Hall as [|i episodes Hi _ IH]; intros l st.
  - exists l, st, []. split; [reflexivity|]. split; [constructor|].
    simpl. rewrite app_nil_r. reflexivity.
  - destruct (train_episode_run a i l st Hms Hsi Hi)
      as (l1 & st1 & tr & Hrun & Hshape & ep & Hsum & Hl1).
    destruct (IH l1 st1) as (l2 & st2 & eps & Hloop & Hshapes & Hrb).
    exists l2, st2, (tr :: eps). split; [|split].
    + cbn [PG.train_loop concat].
      exact (bind_run _ _ st l1 st1 tr (Ok l2) st2 (concat eps) Hrun Hloop).
    + constructor; assumption.
    + rewrite Hrb. cbv zeta in Hl1. subst l1.
      cbn [PG.running_reward PG.reward_buffer concat].
      rewrite omap_app, Hsum. cbn [app PG.running_rewards].
      rewrite <- app_assoc. reflexivity.
Qed.

Lemma seed_generators_run seed (st : state) :
  exists st1,
    PG.seed_generators seed st = (Ok tt, st1, PG.seeding_events seed) /\
    PG.self st1 = PG.self st /\ PG.files st1 = PG.files st.
Proof.
  unfold PG.seed_generators, PG.seeding_events.
  destruct seed as [z|]; [destruct (z =? 0)%Z|];
    eexists; (split; [reflexivity|split; reflexivity]).
Qed.

(** The prologue with a falsy [seed]: nothing happens. *)
Lemma seed_generators_falsy seed (st : state) :
  Py.truthy seed = false -> PG.seed_generators seed st = (Ok tt, st, []).
Proof.
  unfold Py.truthy, PG.seed_generators. destruct seed as [z|]; [|reflexivity].
  destruct (z =? 0)%Z; [reflexivity|discriminate].
Qed.

(** The prologue with a truthy [seed]: NumPy, TensorFlow and the
    environment are seeded, in this order, and nothing else changes. *)
Lemma seed_generators_truthy z (st : state) :
  z <> 0%Z ->
  PG.seed_generators (Some z) st
  = (Ok tt,
     {| PG.self := PG.self st; PG.env := env_seed z (PG.env st);
        PG.rng := tf_random_set_seed z (np_random_seed z (PG.rng st));
        PG.files := PG.files st |},
     [PG.NpSeed z; PG.TfSeed z; PG.EnvSeed z]).
Proof.
  intros Hz. unfold PG.seed_generators.
  destruct (Z.eqb_spec z 0); [contradiction|reflexivity].
Qed.

(** A run of [learn] in train mode. *)
Lemma learn_train_run a (st : state) :
  PG.mode a = "train" ->
  (0 < PG.max_steps a)%Z -> PG.save_interval a <> 0%Z ->
  exists st' eps,
    PG.learn a st
    = (Ok tt, st',
       PG.seeding_events (PG.seed a) ++ concat eps
       ++ [PG.PlotSaveLog
             (PG.running_rewards None (omap PG.printed_sum (concat eps)))
             "PG" (env_spec_id (PG.env st'))]) /\
    Forall2 (PG.train_episode_trace a)
      (Py.range 1 (PG.train_episodes a + 1)) eps.
Proof.
  intros Hmode Hms Hsi. unfold PG.learn. rewrite Hmode.
  change (String.eqb "train" "train") with true. cbv iota.
  destruct (seed_generators_run (PG.seed a) st) as (st1 & Hseed & _ & _).
  destruct (train_loop_run a _ Hms Hsi
              (range_from_one (PG.train_episodes a + 1))
              {| PG.running_reward := None; PG.reward_buffer := [] |} st1)
    as (l & st2 & eps & Hloop & Hshapes & Hrb).
  cbn [PG.running_reward PG.reward_buffer app] in Hrb.
  exists {| PG.self := PG.self st2; PG.env := PG.env st2; PG.rng := PG.rng st2;
            PG.files := plot_save_log (PG.reward_buffer l) "PG"
                          (env_spec_id (PG.env st2)) (PG.files st2) |}, eps.
  split; [|exact Hshapes].
  eapply bind_run; [exact Hseed|].
  eapply bind_run; [exact Hloop|].
  unfold PG.bind, PG.get, PG.emit, PG.put. cbn. rewrite Hrb. reflexivity.
Qed.

End pg_loops.

Section pg_test_mode.
Open Scope R_scope.
Context {E Obs Act Model Opt Rng Files : Type}.
Context `{!Env E Obs Act} `{!Framework Obs Act Model Opt Rng Files}.

Local Abbreviation M := (@PG.M E Obs Act Model Opt Rng Files).
Local Abbreviation state := (@PG.state E Obs Act Model Opt Rng Files).
Local Abbreviation event := (@PG.event Obs Act).

Lemma last_running_reward_cons previous ep_rs_sum sums :
  PG.last_running_reward previous (ep_rs_sum :: sums)
  = PG.last_running_reward
      (Some (match previous with
             | None => ep_rs_sum
             | Some p => 0.99 * p + 0.01 * ep_rs_sum
             end)) sums.
Proof.
  unfold PG.last_running_reward. cbn [PG.running_rewards].
  rewrite last_cons. destruct (last _); reflexivity.
Qed.

(** The step loop of test mode always completes and changes only the
    environment. *)
Lemma test_steps_run a steps : forall o s (st : state),
  exists ep st' tr,
    PG.test_steps a steps o s st = (Ok ep, st', tr) /\
    (PG.self st' = PG.self st /\ PG.files st' = PG.files st /\
     omap PG.printed_sum tr = []).
Proof.
  induction steps as [|x steps IH]; intros o s st.
  - apply ret_post. repeat split; reflexivity.
  - cbn [PG.test_steps].
    eapply bind_post; [apply render_if_run|].
    eapply bind_post; [apply choose_action_greedy_run|].
    eapply bind_post; [apply step_run'|].
    cbn [PG.self PG.env PG.rng PG.files PG.model].
    destruct (snd (env_step _ _)) as [[o_ r] d].
    destruct d.
    + apply ret_post. repeat split; try reflexivity.
      destruct (PG.render a); reflexivity.
    + match goal with |- context [PG.test_steps a steps o_ ?s' ?st'] =>
        destruct (IH o_ s' st') as (ep & st2 & tr & Hrun & Hself & Hfiles & Hq)
      end.
      exists ep, st2, tr. split; [exact Hrun|]. repeat split; try assumption.
      rewrite !omap_app, Hq. destruct (PG.render a); reflexivity.
Qed.

Lemma test_episode_run a i rr (st : state) :
  exists rr' st' tr,
    PG.test_episode a i rr st = (Ok rr', st', tr) /\
    (PG.self st' = PG.self st /\ PG.files st' = PG.files st /\
     exists ep_rs_sum,
       omap PG.printed_sum tr = [ep_rs_sum] /\
       rr' = Some (match rr with
                   | None => ep_rs_sum
                   | Some p => 0.99 * p + 0.01 * ep_rs_sum
                   end)).
Proof.
  unfold PG.test_episode.
  eapply bind_post; [apply reset_run|]. cbv beta.
  match goal with |- context [PG.bind (PG.test_steps a ?steps ?o ?s) _ ?st1] =>
    destruct (test_steps_run a steps o s st1)
      as (ep & st2 & steps_tr & Hrun & Hself & Hfiles & Hq)
  end.
  eapply bind_post; [exact Hrun|].
  eapply bind_post; [apply update_running_reward_run|].
  eapply bind_post; [reflexivity|].
  apply ret_post. split; [exact Hself|]. split; [exact Hfiles|].
  exists ep. split.
  - rewrite !omap_app, Hq. reflexivity.
  - destruct rr as [p|]; [|reflexivity].
    replace (0.99 * p + 0.01 * ep) with (p * 0.99 + ep * 0.01) by lra.
    reflexivity.
Qed.

Lemma test_loop_run a episodes : forall rr (st : state),
  exists rr' st' tr,
    PG.test_loop a episodes rr st = (Ok rr', st', tr) /\
    (PG.self st' = PG.self st /\ PG.files st' = PG.files st /\
     rr' = PG.last_running_reward rr (omap PG.printed_sum tr)).
Proof.
  induction episodes as [|i episodes IH]; intros rr st.
  - apply ret_post. repeat split; reflexivity.
  - cbn [PG.test_loop].
    destruct (test_episode_run a i rr st)
      as (rr1 & st1 & tr1 & Hrun & Hs1 & Hf1 & ep & Hsum & Hrr1).
    eapply bind_post; [exact Hrun|].
    destruct (IH rr1 st1) as (rr2 & st2 & tr2 & Hloop & Hs2 & Hf2 & Hrr2).
    exists rr2, st2, tr2. split; [exact Hloop|].
    split; [congruence|]. split; [congruence|].
    rewrite omap_app, Hsum. cbn [app].
    rewrite last_running_reward_cons, <- Hrr1. exact Hrr2.
Qed.

(** A run of [learn] in test mode: it always completes, loads the
    checkpoint first, and then only plays episodes. *)
Lemma learn_test_run a (st : state) :
  PG.mode a = "test" ->
  exists st' tr,
    PG.learn a st
    = (Ok tt, st', PG.seeding_events (PG.seed a) ++ PG.LoadCkpt :: tr) /\
    Forall (fun ev => PG.is_test_event ev = true) tr /\
    PG.files st' = PG.files st /\
    PG.buffer (PG.self st') = PG.buffer (PG.self st).
Proof.
  intros Hmode. unfold PG.learn. rewrite Hmode.
  change (String.eqb "test" "train") with false.
  change (String.eqb "test" "test") with true. cbv iota.
  destruct (seed_generators_run (PG.seed a) st) as (st1 & Hseed & Hs1 & Hf1).
  pose proof (load_ckpt_run st1) as Hload.
  match type of Hload with _ = (_, ?st2, _) =>
    destruct (test_loop_run a (Py.range 0 (PG.test_episodes a)) None st2)
      as (rr & st3 & tr & Hloop & Hs3 & Hf3 & _);
    pose proof (test_loop_emits (fun ev => PG.is_test_event ev = true)
                  (fun ev Hev => Hev) a (Py.range 0 (PG.test_episodes a)) None st2)
      as Hemits
  end.
  rewrite Hloop in Hemits. cbn [snd] in Hemits.
  exists st3, tr. split; [|split; [exact Hemits|split]].
  - eapply bind_run; [exact Hseed|].
    change (PG.LoadCkpt :: tr) with ([PG.LoadCkpt] ++ tr).
    eapply bind_run; [exact Hload|].
    unfold PG.bind at 1. rewrite Hloop. cbn. rewrite app_nil_r. reflexivity.
  - rewrite Hf3. cbn. exact Hf1.
  - rewrite Hs3. cbn. rewrite Hs1. reflexivity.
Qed.

(** A run of [learn] with any other mode. *)
Lemma learn_unknown_run a (st : state) :
  PG.mode a <> "train" -> PG.mode a <> "test" ->
  exists st',
    PG.learn a st
    = (Ok tt, st', PG.seeding_events (PG.seed a) ++ [PG.PrintLine "unknown mode type"]) /\
    PG.self st' = PG.self st /\ PG.files st' = PG.files st.
Proof.
  intros Htrain Htest. unfold PG.learn.
  destruct (String.eqb_spec (PG.mode a) "train") as [|_]; [contradiction|].
  destruct (String.eqb_spec (PG.mode a) "test") as [|_]; [contradiction|].
  destruct (seed_generators_run (PG.seed a) st) as (st1 & Hseed & Hs1 & Hf1).
  exists st1. split; [|split; assumption].
  eapply bind_run; [exact Hseed|]. reflexivity.
Qed.

End pg_test_mode.

(** ** The claims about [PG] *)

Section pg_claims.
Open Scope R_scope.
Context {E Obs Act Model Opt Rng Files : Type}.
Context `{!Env E Obs Act} `{!Framework Obs Act Model Opt Rng Files}.

Local Abbreviation M := (@PG.M E Obs Act Model Opt Rng Files).
Local Abbreviation state := (@PG.state E Obs Act Model Opt Rng Files).
Local Abbreviation event := (@PG.event Obs Act).

(** C2.  On a non-empty buffer [update] returns, and leaves the buffer
    empty: the transitions of the episode are discarded by the gradient
    update.  Each [store_transition] appends exactly one
    (state, action, reward) entry to the buffer.  More generally, whenever
    a call of [update] returns, the buffer is empty after it. *)
Theorem update_discards_store_appends :
  (forall (st : state) gamma,
     PG.buffer (PG.self st) <> [] ->
     exists norm st',
       PG.update gamma st = (Ok norm, st', [PG.Update gamma]) /\
       PG.buffer (PG.self st') = []) /\
  (forall (st : state) s a r,
     exists st',
       PG.store_transition s a r st = (Ok tt, st', [PG.StoreTransition s a r]) /\
       PG.buffer (PG.self st') = PG.buffer (PG.self st) ++ [(s, a, r)] /\
       length (PG.buffer (PG.self st')) = S (length (PG.buffer (PG.self st)))) /\
  (forall (st : state) gamma norm st' tr,
     PG.update gamma st = (Ok norm, st', tr) ->
     PG.buffer (PG.self st') = []).
Proof.
  split; [|split].
  - intros st gamma Hb.
    pose proof (update_run st gamma Hb) as Hupd. cbv zeta in Hupd.
    eexists _, _. split; [exact Hupd|]. reflexivity.
  - intros st s a r. eexists. split; [apply store_transition_run|].
    cbn [PG.self PG.buffer]. split; [reflexivity|].
    rewrite length_app. simpl. lia.
  - intros st gamma norm st' tr Hrun.
    destruct (PG.buffer (PG.self st)) as [|x b] eqn:Eb.
    + rewrite (update_empty_run st gamma Eb) in Hrun. discriminate Hrun.
    + assert (Hb : PG.buffer (PG.self st) <> []) by congruence.
      pose proof (update_run st gamma Hb) as Hupd. cbv zeta in Hupd.
      rewrite Hupd in Hrun. injection Hrun as _ <- _. reflexivity.
Qed.

(** C3, amended.  In train mode with [max_steps >= 1] and a non-zero
    [save_interval], [learn] completes, and its run is: the seeding, then
    for each [i] of [range(1, train_episodes + 1)] one episode, then the
    plot of the log.  Every episode is, in order: one reset; at most
    [max_steps] iterations of choose action, step, store transition (the
    last one being the first whose step reports [done]); the progress
    line; one update; and a checkpoint when due. *)
Theorem learn_train_episodes a (st : state) :
  PG.mode a = "train" ->
  (0 < PG.max_steps a)%Z -> PG.save_interval a <> 0%Z ->
  PG.train_run a st /\
  exists eps, length eps = Z.to_nat (PG.train_episodes a) /\
    Forall2 (PG.train_episode_trace a)
      (Py.range 1 (PG.train_episodes a + 1)) eps /\
    exists st' rb id,
      PG.learn a st
      = (Ok tt, st',
         PG.seeding_events (PG.seed a) ++ concat eps
         ++ [PG.PlotSaveLog rb "PG" id]).
Proof.
  intros Hmode Hms Hsi.
  destruct (learn_train_run a st Hmode Hms Hsi) as (st' & eps & Hrun & Hshape).
  split.
  - exists st', eps. eexists _, _. split; [exact Hrun|exact Hshape].
  - exists eps. split; [|split; [exact Hshape|]].
    + apply Forall2_length in Hshape. rewrite <- Hshape, range_length.
      f_equal. lia.
    + eexists st', _, _. exact Hrun.
Qed.


Lemma seeding_events_seeding seed :
  Forall (fun ev : event => PG.is_seeding ev = true) (PG.seeding_events seed).
Proof.
  unfold PG.seeding_events. destruct seed as [z|]; [|constructor].
  destruct (z =? 0)%Z; repeat constructor.
Qed.

Lemma seeding_events_truthy seed :
  PG.seeding_events seed <> ([] : list event) <-> Py.truthy seed = true.
Proof.
  unfold PG.seeding_events, Py.truthy. destruct seed as [z|].
  - destruct (z =? 0)%Z; simpl; split; congruence.
  - split; congruence.
Qed.

Lemma bind_trace {A B} (m : M A) (k : A -> M B) st a st1 tr1 :
  m st = (Ok a, st1, tr1) ->
  snd (PG.bind m k st) = tr1 ++ snd (k a st1).
Proof.
  intros Hm. unfold PG.bind. rewrite Hm.
  destruct (k a st1) as [[r st2] tr2]. reflexivity.
Qed.

(** Whatever the mode and the outcome, the seeding calls of [learn] are
    those of its prologue. *)
Lemma learn_trace_split a (st : state) :
  exists rest,
    snd (PG.learn a st) = PG.seeding_events (PG.seed a) ++ rest /\
    Forall (fun ev => PG.is_seeding ev = false) rest.
Proof.
  unfold PG.learn.
  destruct (seed_generators_run (PG.seed a) st) as (st1 & Hseed & _ & _).
  rewrite (bind_trace _ _ st tt st1 _ Hseed).
  eexists. split; [reflexivity|].
  destruct (String.eqb (PG.mode a) "train").
  - apply emits_bind.
    + apply train_loop_emits. intros [] Hev; try reflexivity; discriminate Hev.
    + intros l st2. repeat constructor.
  - destruct (String.eqb (PG.mode a) "test").
    + apply emits_bind; [repeat constructor|]. intros _ st2.
      apply emits_bind; [|intros; constructor].
      apply test_loop_emits. intros [] Hev; try reflexivity; discriminate Hev.
    + repeat constructor.
Qed.

(** C7, amended.  With a mode other than ['train'] and ['test'], [learn]
    first runs its seeding prologue, which seeds the three generators when
    [seed] is truthy and does nothing otherwise, then prints
    ['unknown mode type'] and returns.  Nothing else happens: no reset,
    step, stored transition, update or other episode event and no file
    access occurs, the object (its buffer and its model) and the files are
    as before, and the state returned is the one the prologue leaves.  With
    a falsy [seed] the call only prints; with a truthy one the generators
    of NumPy, TensorFlow and the environment have been seeded. *)
Theorem learn_unknown_mode a (st : state) :
  PG.mode a <> "train" -> PG.mode a <> "test" ->
  exists st',
    PG.learn a st
    = (Ok tt, st',
       PG.seeding_events (PG.seed a) ++ [PG.PrintLine "unknown mode type"]) /\
    Forall (fun ev => PG.is_episode_event ev = false /\ PG.is_file_io ev = false)
      (snd (PG.learn a st)) /\
    PG.buffer (PG.self st') = PG.buffer (PG.self st) /\
    PG.model (PG.self st') = PG.model (PG.self st) /\
    PG.self st' = PG.self st /\
    PG.files st' = PG.files st /\
    PG.seed_generators (PG.seed a) st
    = (Ok tt, st', PG.seeding_events (PG.seed a)) /\
    (Py.truthy (PG.seed a) = false ->
     PG.learn a st = (Ok tt, st, [PG.PrintLine "unknown mode type"])) /\
    (forall z, PG.seed a = Some z -> z <> 0%Z ->
     PG.learn a st
     = (Ok tt,
        {| PG.self := PG.self st; PG.env := env_seed z (PG.env st);
           PG.rng := tf_random_set_seed z (np_random_seed z (PG.rng st));
           PG.files := PG.files st |},
        [PG.NpSeed z; PG.TfSeed z; PG.EnvSeed z;
         PG.PrintLine "unknown mode type"])).
Proof.
  intros Htrain Htest.
  destruct (seed_generators_run (PG.seed a) st) as (st' & Hseed & Hself & Hfiles).
  assert (Hrun : PG.learn a st
                 = (Ok tt, st',
                    PG.seeding_events (PG.seed a)
                    ++ [PG.PrintLine "unknown mode type"])).
  { unfold PG.learn.
    destruct (String.eqb_spec (PG.mode a) "train") as [|_]; [contradiction|].
    destruct (String.eqb_spec (PG.mode a) "test") as [|_]; [contradiction|].
    eapply bind_run; [exact Hseed|]. reflexivity. }
  exists st'. split; [exact Hrun|]. split; [|repeat split].
  - rewrite Hrun. cbn [snd]. apply Forall_app. split; [|repeat constructor].
    eapply Forall_impl; [apply seeding_events_seeding|].
    intros [] Hev; try discriminate Hev; split; reflexivity.
  - rewrite Hself. reflexivity.
  - rewrite Hself. reflexivity.
  - exact Hself.
  - exact Hfiles.
  - exact Hseed.
  - intros Hfalsy. rewrite Hrun.
    rewrite (seed_generators_falsy _ st Hfalsy) in Hseed.
    injection Hseed as <- <-. reflexivity.
  - intros z Hz Hnz. rewrite Hrun, Hz. rewrite Hz in Hseed.
    rewrite (seed_generators_truthy z st Hnz) in Hseed.
    pose proof (f_equal snd Hseed) as Hev.
    pose proof (f_equal (fun x => snd (fst x)) Hseed) as Hst.
    cbn [fst snd] in Hev, Hst. rewrite <- Hst, <- Hev. reflexivity.
Qed.

(** C8, amended.  What [learn] does to the outside: calls on the
    environment, prints, the checkpoint helpers, and in train mode one
    call of [plot_save_log].  In a completed train run the file accesses
    of episode [i] are exactly one [save] when [i] is a multiple of
    [save_interval] and none otherwise, and the run ends with the call
    that plots and saves the log.  Test mode loads the checkpoint once,
    first, and then accesses no file; an unknown mode accesses none. *)
Theorem learn_file_effects a (st : state) :
  (PG.mode a = "train" ->
   (0 < PG.max_steps a)%Z -> PG.save_interval a <> 0%Z ->
   exists st' eps rb id,
     PG.learn a st
     = (Ok tt, st',
        PG.seeding_events (PG.seed a) ++ concat eps
        ++ [PG.PlotSaveLog rb "PG" id]) /\
     Forall2 (fun i tr =>
                List.filter PG.is_file_io tr
                = if (i mod PG.save_interval a =? 0)%Z then [PG.Save] else [])
       (Py.range 1 (PG.train_episodes a + 1)) eps) /\
  (PG.mode a = "test" ->
   exists st' tr,
     PG.learn a st
     = (Ok tt, st', PG.seeding_events (PG.seed a) ++ PG.LoadCkpt :: tr) /\
     List.filter PG.is_file_io tr = [] /\
     PG.files st' = PG.files st) /\
  (PG.mode a <> "train" -> PG.mode a <> "test" ->
   exists st',
     PG.learn a st
     = (Ok tt, st',
        PG.seeding_events (PG.seed a) ++ [PG.PrintLine "unknown mode type"]) /\
     PG.files st' = PG.files st).
Proof.
  split; [|split].
  - intros Hmode Hms Hsi.
    destruct (learn_train_run a st Hmode Hms Hsi) as (st' & eps & Hrun & Hshape).
    exists st', eps. eexists _, _. split; [exact Hrun|].
    eapply Forall2_impl; [exact Hshape|].
    intros i tr (steps & ep & Hsteps & ->).
    destruct (train_steps_trace_quiet a _ _ Hsteps) as [_ Hq].
    rewrite !List.filter_app, Hq.
    destruct (_ =? 0)%Z; reflexivity.
  - intros Hmode.
    destruct (learn_test_run a st Hmode) as (st' & tr & Hrun & Hev & Hfiles & _).
    exists st', tr. split; [exact Hrun|]. split; [|exact Hfiles].
    clear Hrun. induction Hev as [|ev tr Hev _ IH]; [reflexivity|].
    cbn [List.filter]. rewrite IH.
    destruct ev; try discriminate Hev; reflexivity.
  - intros Htrain Htest.
    destruct (learn_unknown_run a st Htrain Htest) as (st' & Hrun & _ & Hfiles).
    exists st'. split; assumption.
Qed.

Lemma bind_ext {A B} (m m' : M A) (k k' : A -> M B) st :
  m st = m' st -> (forall x st1, k x st1 = k' x st1) ->
  PG.bind m k st = PG.bind m' k' st.
Proof.
  intros Hm Hk. unfold PG.bind. rewrite <- Hm.
  destruct (m st) as [[[x|e] st1] tr]; [rewrite Hk|]; reflexivity.
Qed.

(** What follows a truthy seeding prologue runs as it would after a
    falsy one, on the seeded generators. *)
Lemma bind_seeded {B} (k k' : unit -> M B) z (st : state) :
  z <> 0%Z ->
  (forall st1, k tt st1 = k' tt st1) ->
  PG.bind (PG.seed_generators (Some z)) k st
  = let '(r, st', tr) :=
      PG.bind (PG.seed_generators None) k'
        {| PG.self := PG.self st; PG.env := env_seed z (PG.env st);
           PG.rng := tf_random_set_seed z (np_random_seed z (PG.rng st));
           PG.files := PG.files st |} in
    (r, st', [PG.NpSeed z; PG.TfSeed z; PG.EnvSeed z] ++ tr).
Proof.
  intros Hz Hk. unfold PG.bind. rewrite (seed_generators_truthy z st Hz).
  cbn [PG.seed_generators PG.ret]. rewrite Hk.
  destruct (k' tt _) as [[r st2] tr2]. reflexivity.
Qed.

(** The loops do not read the [seed] argument. *)
Lemma train_loop_seed te tse ms si md rd g s1 s2 episodes :
  forall l (st : state),
    PG.train_loop (PG.mk_args te tse ms si md rd g s1) episodes l st
    = PG.train_loop (PG.mk_args te tse ms si md rd g s2) episodes l st.
Proof.
  assert (Hsteps : forall steps o s (st : state),
    PG.train_steps (PG.mk_args te tse ms si md rd g s1) steps o s st
    = PG.train_steps (PG.mk_args te tse ms si md rd g s2) steps o s st).
  { induction steps as [|x steps IH]; intros o s st; [reflexivity|].
    cbn [PG.train_steps PG.render].
    apply bind_ext; [reflexivity|]. intros _ st1.
    apply bind_ext; [reflexivity|]. intros act st2.
    apply bind_ext; [reflexivity|]. intros [[o_ r] d] st3.
    apply bind_ext; [reflexivity|]. intros _ st4.
    destruct d; [reflexivity|apply IH]. }
  induction episodes as [|i episodes IH]; intros l st; [reflexivity|].
  cbn [PG.train_loop]. apply bind_ext; [|intros; apply IH].
  unfold PG.train_episode. cbn [PG.max_steps PG.train_episodes PG.gamma].
  apply bind_ext; [reflexivity|]. intros o st1.
  apply bind_ext; [apply Hsteps|]. reflexivity.
Qed.

Lemma test_loop_seed te tse ms si md rd g s1 s2 episodes :
  forall rr (st : state),
    PG.test_loop (PG.mk_args te tse ms si md rd g s1) episodes rr st
    = PG.test_loop (PG.mk_args te tse ms si md rd g s2) episodes rr st.
Proof.
  assert (Hsteps : forall steps o s (st : state),
    PG.test_steps (PG.mk_args te tse ms si md rd g s1) steps o s st
    = PG.test_steps (PG.mk_args te tse ms si md rd g s2) steps o s st).
  { induction steps as [|x steps IH]; intros o s st; [reflexivity|].
    cbn [PG.test_steps PG.render].
    apply bind_ext; [reflexivity|]. intros _ st1.
    apply bind_ext; [reflexivity|]. intros act st2.
    apply bind_ext; [reflexivity|]. intros [[o_ r] d] st3.
    destruct d; [reflexivity|apply IH]. }
  induction episodes as [|i episodes IH]; intros rr st; [reflexivity|].
  cbn [PG.test_loop]. apply bind_ext; [|intros; apply IH].
  unfold PG.test_episode. cbn [PG.max_steps PG.test_episodes].
  apply bind_ext; [reflexivity|]. intros o st1.
  apply bind_ext; [apply Hsteps|]. reflexivity.
Qed.

(** C10.  [learn] seeds the generators of NumPy, of TensorFlow and of
    the environment if and only if [seed] is truthy, and then it does so
    first and with that seed: the prologue calls [np.random.seed],
    [tf.random.set_seed] and [env.seed] with it, and the rest of the call
    is the unseeded call run on the generators so seeded.  With
    [seed = 0], as with [None], nothing is seeded: such a call is the very
    computation of the unseeded call, so it is no more reproducible than
    that one. *)
Theorem learn_seeds_iff_truthy :
  (forall a (st : state),
     Exists (fun ev => PG.is_seeding ev = true) (snd (PG.learn a st))
     <-> Py.truthy (PG.seed a) = true) /\
  (forall a (st : state) z,
     PG.seed a = Some z -> z <> 0%Z ->
     exists rest,
       snd (PG.learn a st) = [PG.NpSeed z; PG.TfSeed z; PG.EnvSeed z] ++ rest /\
       Forall (fun ev => PG.is_seeding ev = false) rest) /\
  (forall a (st : state),
     Py.truthy (PG.seed a) = false ->
     PG.seed_generators (PG.seed a) st = (Ok tt, st, []) /\
     Forall (fun ev => PG.is_seeding ev = false) (snd (PG.learn a st))) /\
  (forall te tse ms si md rd g (st : state),
     PG.learn (PG.mk_args te tse ms si md rd g (Some 0%Z)) st
     = PG.learn (PG.mk_args te tse ms si md rd g None) st) /\
  (forall (st : state) z,
     z <> 0%Z ->
     PG.seed_generators (Some z) st
     = (Ok tt,
        {| PG.self := PG.self st; PG.env := env_seed z (PG.env st);
           PG.rng := tf_random_set_seed z (np_random_seed z (PG.rng st));
           PG.files := PG.files st |},
        [PG.NpSeed z; PG.TfSeed z; PG.EnvSeed z])) /\
  (forall te tse ms si md rd g (st : state) z,
     z <> 0%Z ->
     PG.learn (PG.mk_args te tse ms si md rd g (Some z)) st
     = let '(r, st', tr) :=
         PG.learn (PG.mk_args te tse ms si md rd g None)
           {| PG.self := PG.self st; PG.env := env_seed z (PG.env st);
              PG.rng := tf_random_set_seed z (np_random_seed z (PG.rng st));
              PG.files := PG.files st |} in
       (r, st', [PG.NpSeed z; PG.TfSeed z; PG.EnvSeed z] ++ tr)).
Proof.
  split; [|split; [|split; [|split; [|split]]]].
  - intros a st.
    destruct (learn_trace_split a st) as (rest & -> & Hrest).
    rewrite Exists_app, <- seeding_events_truthy. split.
    + intros [Hex|Hex]; [intros Hnil; rewrite Hnil in Hex; inversion Hex|].
      exfalso. apply Exists_exists in Hex as (ev & Hin & Hev).
      rewrite Forall_forall in Hrest. rewrite (Hrest ev Hin) in Hev. discriminate.
    + intros Hne. left.
      pose proof (seeding_events_seeding (PG.seed a)) as Hall.
      destruct (PG.seeding_events (PG.seed a)) as [|ev tr]; [congruence|].
      inversion Hall; subst. left. assumption.
  - intros a st z Hz Hnz.
    destruct (learn_trace_split a st) as (rest & Hsplit & Hrest).
    exists rest. split; [|exact Hrest].
    rewrite Hsplit, Hz. unfold PG.seeding_events.
    destruct (Z.eqb_spec z 0); [contradiction|reflexivity].
  - intros a st Hfalse.
    destruct (learn_trace_split a st) as (rest & Hsplit & Hrest).
    unfold Py.truthy in Hfalse. rewrite Hsplit.
    unfold PG.seed_generators, PG.seeding_events.
    destruct (PG.seed a) as [z|]; [|split; [reflexivity|exact Hrest]].
    destruct (z =? 0)%Z; [split; [reflexivity|exact Hrest]|discriminate].
  - intros te tse ms si md rd g st. unfold PG.learn.
    cbn [PG.seed PG.mode PG.train_episodes PG.test_episodes PG.seed_generators].
    change (0 =? 0)%Z with true. cbv iota.
    apply bind_ext; [reflexivity|]. intros _ st1.
    destruct (String.eqb md "train").
    + apply bind_ext; [apply train_loop_seed|]. reflexivity.
    + destruct (String.eqb md "test"); [|reflexivity].
      apply bind_ext; [reflexivity|]. intros _ st2.
      apply bind_ext; [apply test_loop_seed|]. reflexivity.
  - intros st z Hz. apply seed_generators_truthy, Hz.
  - intros te tse ms si md rd g st z Hz. unfold PG.learn.
    cbn [PG.seed PG.mode PG.train_episodes PG.test_episodes].
    apply bind_seeded; [exact Hz|]. intros st1.
    destruct (String.eqb md "train").
    + apply bind_ext; [apply train_loop_seed|]. reflexivity.
    + destruct (String.eqb md "test"); [|reflexivity].
      apply bind_ext; [reflexivity|]. intros _ st2.
      apply bind_ext; [apply test_loop_seed|]. reflexivity.
Qed.

End pg_claims.

(** ** The claims about [PG], on the small environment *)

Section pg_tiny.
Import Tiny.
Open Scope R_scope.

Lemma update_discards_store_appends_witness :
  PG.buffer (PG.self Tiny.st1) <> [] /\
  exists norm st',
    PG.update 0.95 Tiny.st1 = (Ok norm, st', [PG.Update 0.95]) /\
    PG.buffer (PG.self st') = [].
Proof.
  split; [discriminate|].
  apply (proj1 update_discards_store_appends Tiny.st1 0.95). discriminate.
Defined.

(** With [max_steps = 0] the first episode stores nothing, and its
    [update] raises while unpacking the empty buffer: the run stops there,
    in its first episode. *)
Lemma learn_no_step_raises :
  PG.learn Tiny.no_step_args Tiny.st0
  = (Raise ValueError, Tiny.st0,
     [PG.EnvReset; PG.PrintEpisode 1 2 0; PG.Update 0.95]).
Proof.
  unfold PG.learn, Tiny.no_step_args.
  cbn [PG.seed PG.mode PG.train_episodes PG.max_steps PG.gamma].
  reflexivity.
Qed.

(** With [save_interval = 0] the first episode completes its update, and
    the test [i_episode % save_interval] then raises. *)
Lemma learn_zero_interval_raises :
  fst (fst (PG.learn Tiny.zero_interval_args Tiny.st0)) = Raise ZeroDivisionError /\
  List.filter (fun ev => match ev with PG.EnvReset => true | _ => false end)
    (snd (PG.learn Tiny.zero_interval_args Tiny.st0)) = [PG.EnvReset].
Proof. split; vm_compute; reflexivity. Qed.

(** C3 as stated fails: a train run with [max_steps = 0] does not go
    through its [train_episodes] episodes. *)
Lemma learn_train_episodes_counterexample :
  PG.mode Tiny.no_step_args = "train" /\
  ~ PG.train_run Tiny.no_step_args Tiny.st0.
Proof.
  split; [reflexivity|].
  intros (st' & eps & rb & id & Hrun & _).
  rewrite learn_no_step_raises in Hrun. discriminate Hrun.
Qed.

Lemma learn_train_episodes_witness :
  PG.mode Tiny.train_args = "train" /\
  (0 < PG.max_steps Tiny.train_args)%Z /\
  PG.save_interval Tiny.train_args <> 0%Z /\
  PG.train_run Tiny.train_args Tiny.st0.
Proof.
  assert (Hmode : PG.mode Tiny.train_args = "train") by reflexivity.
  assert (Hms : (0 < PG.max_steps Tiny.train_args)%Z) by (simpl; lia).
  assert (Hsi : PG.save_interval Tiny.train_args <> 0%Z) by (simpl; lia).
  split; [exact Hmode|]. split; [exact Hms|]. split; [exact Hsi|].
  exact (proj1 (learn_train_episodes Tiny.train_args Tiny.st0 Hmode Hms Hsi)).
Defined.


(** C7 as stated fails: [learn(env, mode='eval', seed=7)] does not only
    print.  It seeds the three generators first, and the generators and
    the environment are not as they were when it returns. *)
Lemma learn_unknown_mode_counterexample :
  PG.mode Tiny.eval_args <> "train" /\
  PG.mode Tiny.eval_args <> "test" /\
  snd (PG.learn Tiny.eval_args Tiny.st0)
  = [PG.NpSeed 7; PG.TfSeed 7; PG.EnvSeed 7; PG.PrintLine "unknown mode type"] /\
  snd (PG.learn Tiny.eval_args Tiny.st0) <> [PG.PrintLine "unknown mode type"] /\
  PG.rng (snd (fst (PG.learn Tiny.eval_args Tiny.st0))) <> PG.rng Tiny.st0 /\
  PG.env (snd (fst (PG.learn Tiny.eval_args Tiny.st0))) <> PG.env Tiny.st0.
Proof.
  assert (Hrun : PG.learn Tiny.eval_args Tiny.st0
                 = (Ok tt,
                    {| PG.self := PG.self Tiny.st0; PG.env := 7%nat;
                       PG.rng := [7; 7]%Z; PG.files := [] |},
                    [PG.NpSeed 7; PG.TfSeed 7; PG.EnvSeed 7;
                     PG.PrintLine "unknown mode type"]))
    by reflexivity.
  rewrite Hrun. cbn [fst snd PG.rng PG.env Tiny.st0].
  repeat split; discriminate.
Qed.

Lemma learn_unknown_mode_witness :
  PG.mode Tiny.eval_args <> "train" /\
  PG.mode Tiny.eval_args <> "test" /\
  PG.learn Tiny.eval_args Tiny.st0
  = (Ok tt,
     {| PG.self := PG.self Tiny.st0; PG.env := 7%nat; PG.rng := [7; 7]%Z;
        PG.files := PG.files Tiny.st0 |},
     [PG.NpSeed 7; PG.TfSeed 7; PG.EnvSeed 7; PG.PrintLine "unknown mode type"]) /\
  exists st',
    PG.learn Tiny.eval_args Tiny.st0
    = (Ok tt, st',
       [PG.NpSeed 7; PG.TfSeed 7; PG.EnvSeed 7; PG.PrintLine "unknown mode type"]) /\
    PG.self st' = PG.self Tiny.st0 /\
    PG.files st' = PG.files Tiny.st0.
Proof.
  assert (Htrain : PG.mode Tiny.eval_args <> "train") by discriminate.
  assert (Htest : PG.mode Tiny.eval_args <> "test") by discriminate.
  split; [exact Htrain|]. split; [exact Htest|].
  destruct (learn_unknown_mode Tiny.eval_args Tiny.st0 Htrain Htest)
    as (st' & Hrun & _ & _ & _ & Hself & Hfiles & _ & _ & Hseeded).
  split.
  - apply (Hseeded 7%Z eq_refl). discriminate.
  - exists st'. split; [exact Hrun|]. split; assumption.
Defined.

(** C8 as stated fails: a completed train run ends with the call of
    [plot_save_log], a file access that is neither of the checkpoint
    helpers, and here the file it writes is there afterwards. *)
Lemma learn_file_effects_counterexample :
  ~ PG.only_checkpoint_io (snd (PG.learn Tiny.train_args Tiny.st0)) /\
  PG.files (snd (fst (PG.learn Tiny.train_args Tiny.st0)))
  = ["pg/policy"; "PG-Tiny-v0"].
Proof.
  split.
  - destruct (learn_train_run Tiny.train_args Tiny.st0)
      as (st' & eps & Hrun & _); [reflexivity|simpl; lia|simpl; lia|].
    rewrite Hrun. cbn [snd]. unfold PG.only_checkpoint_io. intros Hall.
    apply Forall_app in Hall as [_ Hall].
    apply Forall_app in Hall as [_ Hall].
    inversion Hall as [|ev tr Hev _]; subst.
    specialize (Hev eq_refl). discriminate Hev.
  - vm_compute. reflexivity.
Qed.

Lemma learn_file_effects_witness :
  (exists st' eps rb id,
     PG.learn Tiny.train_args Tiny.st0
     = (Ok tt, st',
        PG.seeding_events None ++ concat eps ++ [PG.PlotSaveLog rb "PG" id]) /\
     Forall2 (fun i tr =>
                List.filter PG.is_file_io tr
                = if (i mod 2 =? 0)%Z then [PG.Save] else [])
       (Py.range 1 (2 + 1)) eps) /\
  (exists st' tr,
     PG.learn Tiny.test_args Tiny.st0
     = (Ok tt, st', PG.seeding_events None ++ PG.LoadCkpt :: tr) /\
     List.filter PG.is_file_io tr = [] /\
     PG.files st' = PG.files Tiny.st0) /\
  (exists st',
     PG.learn Tiny.eval_args Tiny.st0
     = (Ok tt, st',
        PG.seeding_events (Some 7%Z) ++ [PG.PrintLine "unknown mode type"]) /\
     PG.files st' = PG.files Tiny.st0).
Proof.
  split; [|split].
  - apply (proj1 (learn_file_effects Tiny.train_args Tiny.st0)).
    + reflexivity.
    + simpl; lia.
    + simpl; lia.
  - apply (proj1 (proj2 (learn_file_effects Tiny.test_args Tiny.st0))).
    reflexivity.
  - apply (proj2 (proj2 (learn_file_effects Tiny.eval_args Tiny.st0)));
      discriminate.
Defined.

Lemma learn_seeds_iff_truthy_witness :
  (exists rest,
     snd (PG.learn Tiny.eval_args Tiny.st0)
     = [PG.NpSeed 7; PG.TfSeed 7; PG.EnvSeed 7] ++ rest /\
     Forall (fun ev => PG.is_seeding ev = false) rest) /\
  PG.seed_generators (PG.seed Tiny.train_args) Tiny.st0 = (Ok tt, Tiny.st0, []) /\
  Forall (fun ev => PG.is_seeding ev = false)
    (snd (PG.learn Tiny.train_args Tiny.st0)) /\
  PG.seed_generators (Some 7%Z) Tiny.st0
  = (Ok tt,
     {| PG.self := PG.self Tiny.st0; PG.env := 7%nat; PG.rng := [7; 7]%Z;
        PG.files := PG.files Tiny.st0 |},
     [PG.NpSeed 7; PG.TfSeed 7; PG.EnvSeed 7]).
Proof.
  split; [|split; [|split]].
  - apply (proj1 (proj2 learn_seeds_iff_truthy) Tiny.eval_args Tiny.st0 7%Z).
    + reflexivity.
    + lia.
  - apply (proj1 (proj2 (proj2 learn_seeds_iff_truthy))
             Tiny.train_args Tiny.st0).
    reflexivity.
  - apply (proj1 (proj2 (proj2 learn_seeds_iff_truthy))
             Tiny.train_args Tiny.st0).
    reflexivity.
  - assert (H7 : 7%Z <> 0%Z) by discriminate.
    exact (proj1 (proj2 (proj2 (proj2 (proj2 learn_seeds_iff_truthy))))
             Tiny.st0 7%Z H7).
Defined.

End pg_tiny.

(** ** The tables of TD3 *)

Section td3_tables.

(** C5.  For an environment whose observation and action shapes are
    1-dimensional, [classic_control], [box2d], [mujoco], [robotics] and
    [dm_control] return the same tables: [state_dim] and [action_dim] read
    from the shapes, [replay_buffer_capacity = 5e5],
    [policy_target_update_interval = 5], [action_range = 1.0], and the
    same [learn_params]; [rlbench] returns these tables with
    [action_range = 0.1] instead. *)
Theorem td3_tables_agree (e : TD3.env) (default_seed : bool) (s a : Z) :
  TD3.observation_space e = [s] ->
  TD3.action_space e = [a] ->
  exists t : TD3.tables,
    TD3.classic_control e default_seed = Ok t /\
    TD3.box2d e default_seed = Ok t /\
    TD3.mujoco e default_seed = Ok t /\
    TD3.robotics e default_seed = Ok t /\
    TD3.dm_control e default_seed = Ok t /\
    TD3.alg_params t !! "state_dim" = Some (TD3.VInt s) /\
    TD3.alg_params t !! "action_dim" = Some (TD3.VInt a) /\
    TD3.alg_params t !! "replay_buffer_capacity" = Some (TD3.VFloat 500000) /\
    TD3.alg_params t !! "policy_target_update_interval" = Some (TD3.VInt 5) /\
    TD3.alg_params t !! "action_range" = Some (TD3.VFloat 1) /\
    TD3.rlbench e default_seed
    = Ok {| TD3.seeded := TD3.seeded t;
            TD3.alg_params :=
              <["action_range" := TD3.VFloat (1 # 10)]> (TD3.alg_params t);
            TD3.learn_params := TD3.learn_params t |}.
Proof.
  intros Hs Ha.
  unfold TD3.classic_control, TD3.box2d, TD3.mujoco, TD3.robotics,
    TD3.dm_control, TD3.rlbench, TD3.first.
  rewrite Hs, Ha. cbn [lookup list_lookup TD3.bind].
  eexists. repeat (split; [reflexivity|]).
  cbn [TD3.seeded TD3.alg_params TD3.learn_params].
  reflexivity.
Qed.

Lemma td3_tables_agree_witness :
  exists t : TD3.tables,
    TD3.classic_control (TD3.Build_env [3%Z] [1%Z]) true = Ok t /\
    TD3.dm_control (TD3.Build_env [3%Z] [1%Z]) true = Ok t /\
    TD3.alg_params t !! "state_dim" = Some (TD3.VInt 3) /\
    TD3.alg_params t !! "action_range" = Some (TD3.VFloat 1) /\
    TD3.rlbench (TD3.Build_env [3%Z] [1%Z]) true
    = Ok {| TD3.seeded := TD3.seeded t;
            TD3.alg_params :=
              <["action_range" := TD3.VFloat (1 # 10)]> (TD3.alg_params t);
            TD3.learn_params := TD3.learn_params t |}.
Proof.
  destruct (td3_tables_agree (TD3.Build_env [3%Z] [1%Z]) true 3 1
              eq_refl eq_refl)
    as (t & H1 & _ & _ & _ & H5 & H6 & _ & _ & _ & H10 & H11).
  exists t. repeat split; assumption.
Defined.

End td3_tables.

(** * Further properties *)

(** ** The discounting loop *)

Section discount_algebra.
Open Scope R_scope.

Lemma np_sum_cons x (l : list R) : np_sum (x :: l) = x + np_sum l.
Proof. reflexivity. Qed.

Lemma discounted_returns_zero (r : list R) : discounted_returns 0 r = r.
Proof.
  induction r as [|x r IH]; [reflexivity|].
  cbn [discounted_returns]. rewrite IH. f_equal. lra.
Qed.

Lemma discounted_returns_one_head (r : list R) :
  hd 0 (discounted_returns 1 r) = np_sum r.
Proof.
  induction r as [|x r IH]; [reflexivity|].
  cbn [discounted_returns hd]. rewrite IH, np_sum_cons. lra.
Qed.

Lemma discounted_returns_one (r : list R) :
  forall t, (t < length r)%nat ->
    discounted_returns 1 r !! t = Some (np_sum (drop t r)).
Proof.
  induction r as [|x r IH]; intros t Ht; [simpl in Ht; lia|].
  destruct t as [|t].
  - cbn [discounted_returns lookup list_lookup drop].
    rewrite discounted_returns_one_head, np_sum_cons.
    replace (x + 1 * np_sum r) with (x + np_sum r) by lra. reflexivity.
  - cbn [discounted_returns lookup list_lookup drop]. apply IH.
    simpl in Ht. lia.
Qed.

(** X4.  The discounting loop never raises, and returns an array as long
    as the rewards; an empty list gives an empty array.  Without
    discounting memory ([gamma = 0]) it returns the rewards themselves,
    and with [gamma = 1] entry [t] is the sum of the rewards from [t]
    on. *)
Theorem discount_rewards_total :
  (forall (r : list R) gamma,
     exists d, discount_rewards r gamma = Ok d /\ length d = length r) /\
  (forall gamma, _discount_and_norm_rewards [] gamma = Ok []) /\
  (forall r : list R, discount_rewards r 0 = Ok r) /\
  (forall (r : list R) d t,
     discount_rewards r 1 = Ok d -> (t < length r)%nat ->
     d !! t = Some (np_sum (drop t r))).
Proof.
  split; [|split; [|split]].
  - intros r gamma. exists (discounted_returns gamma r).
    split; [apply discount_rewards_spec|apply discounted_returns_length].
  - intros gamma. reflexivity.
  - intros r. rewrite discount_rewards_spec, discounted_returns_zero.
    reflexivity.
  - intros r d t Hd Ht. rewrite discount_rewards_spec in Hd.
    injection Hd as <-. apply discounted_returns_one, Ht.
Qed.

Lemma discount_rewards_total_witness :
  discount_rewards [1; 2; 3] 1 = Ok (discounted_returns 1 [1; 2; 3]) /\
  discounted_returns 1 [1; 2; 3] !! 1%nat = Some (np_sum (drop 1 [1; 2; 3])).
Proof.
  assert (H : discount_rewards [1; 2; 3] 1 = Ok (discounted_returns 1 [1; 2; 3]))
    by apply discount_rewards_spec.
  split; [exact H|].
  apply (proj2 (proj2 (proj2 discount_rewards_total)) [1; 2; 3] _ 1%nat H).
  simpl. lia.
Defined.

End discount_algebra.

(** ** The buffer across [store_transition], [update] and [learn] *)

Section pg_buffer.
Open Scope R_scope.
Context {E Obs Act Model Opt Rng Files : Type}.
Context `{!Env E Obs Act} `{!Framework Obs Act Model Opt Rng Files}.

Local Abbreviation M := (@PG.M E Obs Act Model Opt Rng Files).
Local Abbreviation state := (@PG.state E Obs Act Model Opt Rng Files).
Local Abbreviation event := (@PG.event Obs Act).

Lemma bind_inv {A B} (m : M A) (k : A -> M B) st b st2 tr :
  PG.bind m k st = (Ok b, st2, tr) ->
  exists a st1 tr1 tr2,
    m st = (Ok a, st1, tr1) /\ k a st1 = (Ok b, st2, tr2) /\ tr = tr1 ++ tr2.
Proof.
  unfold PG.bind. destruct (m st) as [[[a|e] st1] tr1]; [|discriminate].
  destruct (k a st1) as [[r st2'] tr2] eqn:Hk.
  intros Heq. injection Heq as -> -> <-.
  exists a, st1, tr1, tr2. repeat split; assumption.
Qed.

Lemma range_empty lo hi : (hi <= lo)%Z -> Py.range lo hi = [].
Proof.
  intros H. unfold Py.range. replace (Z.to_nat (hi - lo)) with 0%nat by lia.
  reflexivity.
Qed.

Lemma range_cons lo hi :
  (lo < hi)%Z -> Py.range lo hi = lo :: Py.range (lo + 1) hi.
Proof.
  intros H. unfold Py.range.
  replace (Z.to_nat (hi - lo)) with (S (Z.to_nat (hi - (lo + 1)))) by lia.
  cbn [seq map]. f_equal; [lia|].
  rewrite <- seq_shift, map_map. apply map_ext. intros k. lia.
Qed.

Lemma update_ok_buffer (st : state) gamma norm st' tr :
  PG.update gamma st = (Ok norm, st', tr) -> PG.buffer (PG.self st') = [].
Proof.
  intros Hrun. destruct (PG.buffer (PG.self st)) as [|x b] eqn:Eb.
  - rewrite (update_empty_run st gamma Eb) in Hrun. discriminate Hrun.
  - assert (Hb : PG.buffer (PG.self st) <> []) by congruence.
    pose proof (update_run st gamma Hb) as Hupd. cbv zeta in Hupd.
    rewrite Hupd in Hrun. injection Hrun as _ <- _. reflexivity.
Qed.

Lemma save_if_due_self a i (st : state) r st' tr :
  PG.save_if_due a i st = (r, st', tr) -> PG.self st' = PG.self st.
Proof.
  unfold PG.save_if_due, Py.mod_, PG.bind, PG.lift.
  destruct (i =? 0)%Z; [intros Heq; injection Heq as _ <- _; reflexivity|].
  destruct (PG.save_interval a =? 0)%Z;
    [intros Heq; injection Heq as _ <- _; reflexivity|].
  destruct (i mod PG.save_interval a =? 0)%Z.
  - rewrite save_run. intros Heq. injection Heq as _ <- _. reflexivity.
  - intros Heq. injection Heq as _ <- _. reflexivity.
Qed.

(** X5.  A [PG] whose buffer is empty, as it is right after
    construction, cannot be updated: [update] raises [ValueError] while
    unpacking, before any gradient is taken, and changes nothing.  After
    any [store_transition] an [update] succeeds; its gradient step is
    taken on all stored transitions, in the order stored, and the buffer
    is empty afterwards. *)
Theorem update_needs_a_transition :
  (forall (st : state) gamma,
     PG.buffer (PG.self st) = [] ->
     PG.update gamma st = (Raise ValueError, st, [PG.Update gamma])) /\
  (forall net opt (e : E) (g : Rng) (fs : Files) gamma,
     fst (fst (PG.update gamma
       {| PG.self := PG.init net opt; PG.env := e; PG.rng := g;
          PG.files := fs |})) = Raise ValueError) /\
  (forall (st : state) s a r gamma,
     let b := PG.buffer (PG.self st) ++ [(s, a, r)] in
     let norm := normalize (discounted_returns gamma (map snd b)) in
     let mo := gradient_step (PG.model (PG.self st)) (PG.optimizer (PG.self st))
                 (map (fun x => fst (fst x)) b) (map (fun x => snd (fst x)) b)
                 norm in
     PG.bind (PG.store_transition s a r) (fun _ => PG.update gamma) st
     = (Ok norm,
        {| PG.self :=
             {| PG.name := PG.name (PG.self st); PG.model := fst mo;
                PG.buffer := []; PG.optimizer := snd mo |};
           PG.env := PG.env st; PG.rng := PG.rng st; PG.files := PG.files st |},
        [PG.StoreTransition s a r; PG.Update gamma])).
Proof.
  split; [|split].
  - intros st gamma Hb. apply update_empty_run, Hb.
  - intros net opt e g fs gamma. rewrite update_empty_run; reflexivity.
  - intros st s a r gamma b norm mo.
    change [PG.StoreTransition s a r; PG.Update gamma]
      with ([PG.StoreTransition s a r] ++ [PG.Update gamma]).
    eapply bind_run; [apply store_transition_run|].
    match goal with |- PG.update gamma ?st1 = _ =>
      pose proof (update_run st1 gamma) as Hupd
    end.
    cbn [PG.self PG.buffer PG.model PG.optimizer PG.name PG.env PG.rng PG.files]
      in Hupd.
    apply Hupd. intros Hnil. apply app_eq_nil in Hnil as [_ Hnil]. discriminate.
Qed.

Lemma train_episode_buffer a i l (st : state) l' st' tr :
  PG.train_episode a i l st = (Ok l', st', tr) ->
  PG.buffer (PG.self st') = [].
Proof.
  unfold PG.train_episode. intros Hrun.
  apply bind_inv in Hrun as (o & st1 & tr1 & tr1' & _ & Hrun & _).
  apply bind_inv in Hrun as (ep & st2 & tr2 & tr2' & _ & Hrun & _).
  apply bind_inv in Hrun as (rr & st3 & tr3 & tr3' & _ & Hrun & _).
  apply bind_inv in Hrun as (u & st4 & tr4 & tr4' & _ & Hrun & _).
  apply bind_inv in Hrun as (norm & st5 & tr5 & tr5' & Hupd & Hrun & _).
  apply bind_inv in Hrun as (u' & st6 & tr6 & tr6' & Hsave & Hret & _).
  injection Hret as _ <- _.
  rewrite (save_if_due_self _ _ _ _ _ _ Hsave).
  exact (update_ok_buffer _ _ _ _ _ Hupd).
Qed.

Lemma train_loop_buffer a episodes : forall l (st : state) l' st' tr,
  episodes <> [] ->
  PG.train_loop a episodes l st = (Ok l', st', tr) ->
  PG.buffer (PG.self st') = [].
Proof.
  induction episodes as [|i episodes IH]; intros l st l' st' tr Hne Hrun;
    [congruence|].
  cbn [PG.train_loop] in Hrun.
  apply bind_inv in Hrun as (l1 & st1 & tr1 & tr2 & Hep & Hloop & _).
  destruct episodes as [|j episodes].
  - injection Hloop as _ <- _. exact (train_episode_buffer _ _ _ _ _ _ _ Hep).
  - apply (IH l1 st1 l' st' tr2); [discriminate|exact Hloop].
Qed.

(** X6.  Whenever a train run of at least one episode completes, the
    transition buffer is empty afterwards: each episode ends with the
    update that discards its transitions, and neither the checkpoint nor
    the plot puts anything back. *)
Theorem learn_train_leaves_buffer_empty a (st : state) st' tr :
  PG.mode a = "train" -> (1 <= PG.train_episodes a)%Z ->
  PG.learn a st = (Ok tt, st', tr) ->
  PG.buffer (PG.self st') = [].
Proof.
  intros Hmode Hn Hrun. unfold PG.learn in Hrun. rewrite Hmode in Hrun.
  change (String.eqb "train" "train") with true in Hrun. cbv iota in Hrun.
  apply bind_inv in Hrun as (u & st1 & tr1 & tr1' & _ & Hrun & _).
  apply bind_inv in Hrun as (l & st2 & tr2 & tr2' & Hloop & Hrest & _).
  unfold PG.bind, PG.get, PG.emit, PG.put in Hrest.
  injection Hrest as <- _. cbn [PG.self].
  assert (Hne : Py.range 1 (PG.train_episodes a + 1) <> [])
    by (apply range_nonempty; lia).
  exact (train_loop_buffer _ _ _ _ _ _ _ Hne Hloop).
Qed.

(** X7.  Train mode with [max_steps <= 0], started on an empty buffer
    with at least one episode to run, stops in its first episode: the
    environment is reset, no step is taken, the progress line shows a
    sum of zero, and [update] raises [ValueError]; the object and the
    files are untouched. *)
Theorem learn_train_without_steps a (st : state) :
  PG.mode a = "train" -> (PG.max_steps a <= 0)%Z ->
  (1 <= PG.train_episodes a)%Z -> PG.buffer (PG.self st) = [] ->
  exists st',
    PG.learn a st
    = (Raise ValueError, st',
       PG.seeding_events (PG.seed a)
       ++ [PG.EnvReset; PG.PrintEpisode 1 (PG.train_episodes a) 0;
           PG.Update (PG.gamma a)]) /\
    PG.self st' = PG.self st /\ PG.files st' = PG.files st.
Proof.
  intros Hmode Hms Hn Hb. unfold PG.learn. rewrite Hmode.
  change (String.eqb "train" "train") with true. cbv iota.
  destruct (seed_generators_run (PG.seed a) st) as (st1 & Hseed & Hs1 & Hf1).
  rewrite (range_cons 1) by lia. cbn [PG.train_loop].
  eexists. split.
  - eapply bind_run; [exact Hseed|].
    apply bind_raise. apply bind_raise.
    unfold PG.train_episode. rewrite (range_empty 0) by lia.
    cbn [PG.train_steps].
    unfold PG.bind, PG.ret, PG.emit. rewrite reset_run. cbv beta iota zeta.
    rewrite update_running_reward_run. cbv beta iota zeta.
    rewrite update_empty_run by (cbn [PG.self]; rewrite Hs1; exact Hb).
    reflexivity.
  - cbn [PG.self PG.files]. split; assumption.
Qed.

(** X8.  Train mode with [save_interval = 0], at least one step allowed
    and at least one episode to run, stops after its first episode: the
    episode is played and its update is applied, then the test
    [i_episode % save_interval] raises [ZeroDivisionError]; no checkpoint
    is saved and no log is plotted. *)
Theorem learn_train_zero_interval a (st : state) :
  PG.mode a = "train" -> (0 < PG.max_steps a)%Z ->
  PG.save_interval a = 0%Z -> (1 <= PG.train_episodes a)%Z ->
  exists st' steps ep_rs_sum,
    PG.learn a st
    = (Raise ZeroDivisionError, st',
       PG.seeding_events (PG.seed a) ++ [PG.EnvReset] ++ steps
       ++ [PG.PrintEpisode 1 (PG.train_episodes a) ep_rs_sum;
           PG.Update (PG.gamma a)]) /\
    PG.train_steps_trace a (Z.to_nat (PG.max_steps a)) steps /\
    PG.buffer (PG.self st') = [] /\ PG.files st' = PG.files st.
Proof.
  intros Hmode Hms Hsi Hn. unfold PG.learn. rewrite Hmode.
  change (String.eqb "train" "train") with true. cbv iota.
  destruct (seed_generators_run (PG.seed a) st) as (st1 & Hseed & Hs1 & Hf1).
  rewrite (range_cons 1) by lia. cbn [PG.train_loop].
  pose proof (reset_run st1) as Hreset.
  match type of Hreset with _ = (Ok ?o, ?st2, _) =>
    destruct (train_steps_run a (Py.range 0 (PG.max_steps a)) o 0 st2)
      as (ep & st3 & steps & Hsteps & Hshape & Hbuf & Hf3)
  end.
  rewrite range_length, Z.sub_0_r in Hshape.
  assert (Hne : PG.buffer (PG.self st3) <> []).
  { apply Hbuf, range_nonempty. lia. }
  pose proof (update_run st3 (PG.gamma a) Hne) as Hupd. cbv zeta in Hupd.
  eexists _, steps, ep. split; [|split; [exact Hshape|]].
  - eapply bind_run; [exact Hseed|].
    apply bind_raise. apply bind_raise.
    unfold PG.train_episode.
    eapply bind_run; [exact Hreset|].
    eapply bind_run; [exact Hsteps|].
    unfold PG.bind, PG.emit. rewrite update_running_reward_run.
    cbv beta iota zeta. rewrite Hupd. cbv beta iota zeta.
    rewrite save_if_due_zero by (lia || exact Hsi). reflexivity.
  - cbn [PG.self PG.buffer PG.files]. split; [reflexivity|].
    rewrite Hf3. cbn [PG.files]. exact Hf1.
Qed.

End pg_buffer.

(** ** Test mode, and the sums and the log of the episodes *)

Section pg_episodes.
Open Scope R_scope.
Context {E Obs Act Model Opt Rng Files : Type}.
Context `{!Env E Obs Act} `{!Framework Obs Act Model Opt Rng Files}.

Local Abbreviation M := (@PG.M E Obs Act Model Opt Rng Files).
Local Abbreviation state := (@PG.state E Obs Act Model Opt Rng Files).
Local Abbreviation event := (@PG.event Obs Act).

(** The step loop of test mode leaves the object, the generators and the
    files alone, and returns the sum it was given plus the rewards of its
    steps. *)
Lemma test_steps_frame a steps : forall o s (st : state),
  exists ep st' tr,
    PG.test_steps a steps o s st = (Ok ep, st', tr) /\
    (PG.self st' = PG.self st /\ PG.rng st' = PG.rng st /\
     PG.files st' = PG.files st /\
     ep = s + np_sum (omap Trace.step_reward tr) /\
     omap PG.printed_sum tr = []).
Proof.
  induction steps as [|x steps IH]; intros o s st.
  - apply ret_post. repeat split; try reflexivity.
    unfold np_sum. simpl. lra.
  - cbn [PG.test_steps].
    eapply bind_post; [apply render_if_run|].
    eapply bind_post; [apply choose_action_greedy_run|].
    eapply bind_post; [apply step_run'|].
    cbn [PG.self PG.env PG.rng PG.files PG.model].
    destruct (snd (env_step _ _)) as [[o_ r] d].
    destruct d.
    + apply ret_post. repeat split; try reflexivity.
      * destruct (PG.render a); unfold np_sum; simpl; lra.
      * destruct (PG.render a); reflexivity.
    + match goal with |- context [PG.test_steps a steps o_ ?s' ?st'] =>
        destruct (IH o_ s' st')
          as (ep & st2 & tr & Hrun & Hself & Hrng & Hfiles & Hsum & Hq)
      end.
      exists ep, st2, tr. split; [exact Hrun|].
      repeat split; try assumption.
      * rewrite Hsum, !omap_app.
        destruct (PG.render a); unfold np_sum; simpl; lra.
      * rewrite !omap_app, Hq. destruct (PG.render a); reflexivity.
Qed.

Lemma test_loop_frame a episodes : forall rr (st : state),
  exists rr' st' tr,
    PG.test_loop a episodes rr st = (Ok rr', st', tr) /\
    (PG.self st' = PG.self st /\ PG.rng st' = PG.rng st /\
     PG.files st' = PG.files st).
Proof.
  induction episodes as [|i episodes IH]; intros rr st.
  - apply ret_post. repeat split; reflexivity.
  - cbn [PG.test_loop]. unfold PG.test_episode.
    pose proof (reset_run st) as Hreset.
    match type of Hreset with _ = (Ok ?o, ?st1, _) =>
      destruct (test_steps_frame a (Py.range 0 (PG.max_steps a)) o 0 st1)
        as (ep & st2 & tr2 & Hsteps & Hs2 & Hr2 & Hf2 & _)
    end.
    eapply bind_post.
    { eapply bind_run; [exact Hreset|].
      eapply bind_run; [exact Hsteps|].
      eapply bind_run; [apply update_running_reward_run|].
      eapply bind_run; reflexivity. }
    match goal with |- context [PG.test_loop a episodes ?rr1 st2] =>
      destruct (IH rr1 st2) as (rr2 & st3 & tr3 & Hloop & Hs3 & Hr3 & Hf3)
    end.
    eexists _, st3, _. split; [exact Hloop|].
    cbn [PG.self PG.rng PG.files] in *. repeat split; congruence.
Qed.

(** X9.  Test mode never trains.  For any arguments it completes; the
    object comes out with the model loaded from the checkpoint and the
    same buffer and optimizer; no file is written; no action is sampled,
    no transition stored, no update or checkpoint made and nothing
    plotted; and when [seed] is falsy the global generators are left as
    they were. *)
Theorem learn_test_never_trains a (st : state) :
  PG.mode a = "test" ->
  exists st' tr,
    PG.learn a st = (Ok tt, st', tr) /\
    PG.self st'
    = {| PG.name := PG.name (PG.self st);
         PG.model := load_model (PG.model (PG.self st)) "policy"
                       (PG.name (PG.self st)) (PG.files st);
         PG.buffer := PG.buffer (PG.self st);
         PG.optimizer := PG.optimizer (PG.self st) |} /\
    PG.files st' = PG.files st /\
    (Py.truthy (PG.seed a) = false -> PG.rng st' = PG.rng st) /\
    Forall (fun ev => Trace.is_training ev = false) tr.
Proof.
  intros Hmode.
  assert (Hseed : exists st1,
    PG.seed_generators (PG.seed a) st = (Ok tt, st1, PG.seeding_events (PG.seed a)) /\
    PG.self st1 = PG.self st /\ PG.files st1 = PG.files st /\
    (Py.truthy (PG.seed a) = false -> PG.rng st1 = PG.rng st)).
  { unfold PG.seed_generators, PG.seeding_events, Py.truthy.
    destruct (PG.seed a) as [z|]; [destruct (z =? 0)%Z|];
      eexists; (split; [reflexivity|]); repeat split; try reflexivity.
    simpl. discriminate. }
  destruct Hseed as (st1 & Hseed & Hs1 & Hf1 & Hr1).
  pose proof (load_ckpt_run st1) as Hload.
  match type of Hload with _ = (_, ?st2, _) =>
    destruct (test_loop_frame a (Py.range 0 (PG.test_episodes a)) None st2)
      as (rr & st3 & tr & Hloop & Hs3 & Hr3 & Hf3);
    pose proof (test_loop_emits (fun ev => PG.is_test_event ev = true)
                  (fun ev Hev => Hev) a (Py.range 0 (PG.test_episodes a)) None st2)
      as Hemits
  end.
  rewrite Hloop in Hemits. cbn [snd] in Hemits.
  exists st3, (PG.seeding_events (PG.seed a) ++ [PG.LoadCkpt] ++ tr ++ []).
  split; [|split; [|split; [|split]]].
  - unfold PG.learn. rewrite Hmode.
    change (String.eqb "test" "train") with false.
    change (String.eqb "test" "test") with true. cbv iota.
    eapply bind_run; [exact Hseed|].
    eapply bind_run; [exact Hload|].
    eapply bind_run; [exact Hloop|]. reflexivity.
  - rewrite Hs3. cbn [PG.self]. rewrite Hs1, Hf1. reflexivity.
  - rewrite Hf3. cbn [PG.files]. exact Hf1.
  - intros Hfalse. rewrite Hr3. cbn [PG.rng]. apply Hr1, Hfalse.
  - apply Forall_app. split.
    + eapply Forall_impl; [apply seeding_events_seeding|].
      intros [] Hev; try discriminate Hev; reflexivity.
    + constructor; [reflexivity|]. rewrite app_nil_r.
      eapply Forall_impl; [exact Hemits|].
      intros [] Hev; try discriminate Hev; try reflexivity.
      destruct greedy; [reflexivity|discriminate Hev].
Qed.

(** The step loop of train mode returns the sum it was given plus the
    rewards of its steps. *)
Lemma train_steps_sum a steps : forall o s (st : state),
  exists ep st' tr,
    PG.train_steps a steps o s st = (Ok ep, st', tr) /\
    (ep = s + np_sum (omap Trace.step_reward tr) /\
     omap PG.printed_sum tr = []).
Proof.
  induction steps as [|x steps IH]; intros o s st.
  - apply ret_post. split; [unfold np_sum; simpl; lra|reflexivity].
  - cbn [PG.train_steps].
    eapply bind_post; [apply render_if_run|].
    eapply bind_post; [apply choose_action_run|].
    eapply bind_post; [apply step_run'|].
    cbn [PG.self PG.env PG.rng PG.files PG.model].
    destruct (snd (env_step _ _)) as [[o_ r] d].
    eapply bind_post; [apply store_transition_run|].
    destruct d.
    + apply ret_post. split.
      * destruct (PG.render a); unfold np_sum; simpl; lra.
      * destruct (PG.render a); reflexivity.
    + match goal with |- context [PG.train_steps a steps o_ ?s' ?st'] =>
        destruct (IH o_ s' st') as (ep & st2 & tr & Hrun & Hsum & Hq)
      end.
      exists ep, st2, tr. split; [exact Hrun|]. split.
      * rewrite Hsum, !omap_app.
        destruct (PG.render a); unfold np_sum; simpl; lra.
      * rewrite !omap_app, Hq. destruct (PG.render a); reflexivity.
Qed.

(** X10.  The sum shown by the progress line of an episode is the sum of
    the rewards returned by the steps of that episode.  In train mode
    this holds whether or not the episode's update then succeeds: the
    trace of an episode is the reset, its steps, the progress line with
    their reward sum, and what follows has no step.  In test mode the
    episode ends with the progress line. *)
Theorem episode_sum_is_reward_sum :
  (forall a i l (st : state),
     exists steps rest,
       snd (PG.train_episode a i l st)
       = [PG.EnvReset] ++ steps
         ++ [PG.PrintEpisode i (PG.train_episodes a)
               (np_sum (omap Trace.step_reward steps))] ++ rest /\
       omap PG.printed_sum steps = [] /\
       omap Trace.step_reward rest = []) /\
  (forall a i rr (st : state),
     exists steps,
       snd (PG.test_episode a i rr st)
       = [PG.EnvReset] ++ steps
         ++ [PG.PrintEpisode i (PG.test_episodes a)
               (np_sum (omap Trace.step_reward steps))] /\
       omap PG.printed_sum steps = []).
Proof.
  split.
  - intros a i l st. unfold PG.train_episode.
    pose proof (reset_run st) as Hreset.
    match type of Hreset with _ = (Ok ?o, ?st1, _) =>
      destruct (train_steps_sum a (Py.range 0 (PG.max_steps a)) o 0 st1)
        as (ep & st2 & steps & Hsteps & Hsum & Hq)
    end.
    rewrite (bind_trace _ _ _ _ _ _ Hreset).
    rewrite (bind_trace _ _ _ _ _ _ Hsteps).
    rewrite (bind_trace _ _ _ _ _ _ (update_running_reward_run st2 _ ep)).
    erewrite (bind_trace (PG.emit _)) by reflexivity.
    eexists steps, _. split; [|split; [exact Hq|]].
    + cbn [app]. do 3 f_equal. f_equal. lra.
    + match goal with |- omap _ (snd ?m) = [] =>
        assert (Hall : Forall (fun ev => Trace.step_reward ev = None) (snd m))
      end.
      { apply emits_bind; [apply update_emits; reflexivity|]. intros _ st5.
        apply emits_bind; [apply save_if_due_emits; reflexivity|].
        intros _ st6. constructor. }
      induction Hall as [|ev tr Hev _ IH]; [reflexivity|].
      cbn. rewrite Hev. exact IH.
  - intros a i rr st. unfold PG.test_episode.
    pose proof (reset_run st) as Hreset.
    match type of Hreset with _ = (Ok ?o, ?st1, _) =>
      destruct (test_steps_frame a (Py.range 0 (PG.max_steps a)) o 0 st1)
        as (ep & st2 & steps & Hsteps & _ & _ & _ & Hsum & Hq)
    end.
    rewrite (bind_trace _ _ _ _ _ _ Hreset).
    rewrite (bind_trace _ _ _ _ _ _ Hsteps).
    rewrite (bind_trace _ _ _ _ _ _ (update_running_reward_run st2 _ ep)).
    exists steps. split; [|exact Hq].
    cbn. do 3 f_equal. f_equal. lra.
Qed.

End pg_episodes.

(** ** Episode counts, the log and rendering *)

Section pg_log.
Open Scope R_scope.
Context {E Obs Act Model Opt Rng Files : Type}.
Context `{!Env E Obs Act} `{!Framework Obs Act Model Opt Rng Files}.

Local Abbreviation M := (@PG.M E Obs Act Model Opt Rng Files).
Local Abbreviation state := (@PG.state E Obs Act Model Opt Rng Files).
Local Abbreviation event := (@PG.event Obs Act).

(** X11.  With no episode to run ([train_episodes <= 0], respectively
    [test_episodes <= 0]) [learn] still completes: train mode only plots
    an empty log, test mode only loads the checkpoint; the environment is
    never reset and, in train mode, the object is unchanged. *)
Theorem learn_without_episodes a (st : state) :
  (PG.mode a = "train" -> (PG.train_episodes a <= 0)%Z ->
   exists st',
     PG.learn a st
     = (Ok tt, st',
        PG.seeding_events (PG.seed a)
        ++ [PG.PlotSaveLog [] "PG" (env_spec_id (PG.env st'))]) /\
     PG.self st' = PG.self st) /\
  (PG.mode a = "test" -> (PG.test_episodes a <= 0)%Z ->
   exists st',
     PG.learn a st
     = (Ok tt, st', PG.seeding_events (PG.seed a) ++ [PG.LoadCkpt]) /\
     PG.buffer (PG.self st') = PG.buffer (PG.self st)).
Proof.
  destruct (seed_generators_run (PG.seed a) st) as (st1 & Hseed & Hs1 & Hf1).
  split.
  - intros Hmode Hn. unfold PG.learn. rewrite Hmode.
    change (String.eqb "train" "train") with true. cbv iota.
    rewrite (range_empty 1) by lia. cbn [PG.train_loop].
    exists {| PG.self := PG.self st1; PG.env := PG.env st1;
              PG.rng := PG.rng st1;
              PG.files := plot_save_log [] "PG" (env_spec_id (PG.env st1))
                            (PG.files st1) |}.
    split.
    + eapply bind_run; [exact Hseed|]. reflexivity.
    + cbn [PG.self]. exact Hs1.
  - intros Hmode Hn. unfold PG.learn. rewrite Hmode.
    change (String.eqb "test" "train") with false.
    change (String.eqb "test" "test") with true. cbv iota.
    rewrite (range_empty 0) by lia. cbn [PG.test_loop].
    eexists. split.
    + eapply bind_run; [exact Hseed|]. reflexivity.
    + cbn [PG.self PG.buffer]. rewrite Hs1. reflexivity.
Qed.





(** X13.  With [render = False] the environment is never rendered, in
    any mode and whether or not the run completes. *)
Theorem learn_render_off a (st : state) :
  PG.render a = false ->
  Forall (fun ev => Trace.is_render ev = false) (snd (PG.learn a st)).
Proof.
  intros Hr.
  assert (Htrain_steps : forall steps o s (st : state),
    Forall (fun ev => Trace.is_render ev = false)
      (snd (PG.train_steps a steps o s st))).
  { induction steps as [|x steps IH]; intros o s st0; [constructor|].
    cbn [PG.train_steps]. rewrite Hr.
    apply emits_bind; [constructor|]. intros _ st1.
    apply emits_bind; [rewrite choose_action_run; repeat constructor|].
    intros act st2. apply emits_bind; [apply step_emits; reflexivity|].
    intros [[o_ r] d] st3. apply emits_bind; [repeat constructor|].
    intros _ st4. destruct d; [constructor|apply IH]. }
  assert (Htest_steps : forall steps o s (st : state),
    Forall (fun ev => Trace.is_render ev = false)
      (snd (PG.test_steps a steps o s st))).
  { induction steps as [|x steps IH]; intros o s st0; [constructor|].
    cbn [PG.test_steps]. rewrite Hr.
    apply emits_bind; [constructor|]. intros _ st1.
    apply emits_bind; [repeat constructor|].
    intros act st2. apply emits_bind; [apply step_emits; reflexivity|].
    intros [[o_ r] d] st3. destruct d; [constructor|apply IH]. }
  assert (Htrain : forall episodes l (st : state),
    Forall (fun ev => Trace.is_render ev = false)
      (snd (PG.train_loop a episodes l st))).
  { induction episodes as [|i episodes IH]; intros l st0; [constructor|].
    cbn [PG.train_loop]. apply emits_bind; [|intros; apply IH].
    unfold PG.train_episode.
    apply emits_bind; [rewrite reset_run; repeat constructor|]. intros o st1.
    apply emits_bind; [apply Htrain_steps|]. intros ep st2.
    apply emits_bind; [rewrite update_running_reward_run; constructor|].
    intros rr st3.
    apply emits_bind; [repeat constructor|]. intros _ st4.
    apply emits_bind; [apply update_emits; reflexivity|]. intros _ st5.
    apply emits_bind; [apply save_if_due_emits; reflexivity|].
    intros _ st6. constructor. }
  assert (Htest : forall episodes rr (st : state),
    Forall (fun ev => Trace.is_render ev = false)
      (snd (PG.test_loop a episodes rr st))).
  { induction episodes as [|i episodes IH]; intros rr st0; [constructor|].
    cbn [PG.test_loop]. apply emits_bind; [|intros; apply IH].
    unfold PG.test_episode.
    apply emits_bind; [rewrite reset_run; repeat constructor|]. intros o st1.
    apply emits_bind; [apply Htest_steps|]. intros ep st2.
    apply emits_bind; [rewrite update_running_reward_run; constructor|].
    intros rr' st3.
    apply emits_bind; [repeat constructor|]. intros _ st4. constructor. }
  unfold PG.learn. apply emits_bind.
  { destruct (seed_generators_run (PG.seed a) st) as (st1 & -> & _).
    cbn [snd]. eapply Forall_impl; [apply seeding_events_seeding|].
    intros [] Hev; try discriminate Hev; reflexivity. }
  intros _ st1. destruct (String.eqb (PG.mode a) "train").
  - apply emits_bind; [apply Htrain|]. intros l st2. repeat constructor.
  - destruct (String.eqb (PG.mode a) "test"); [|repeat constructor].
    apply emits_bind; [repeat constructor|]. intros _ st2.
    apply emits_bind; [apply Htest|]. intros; constructor.
Qed.

End pg_log.

(** ** The further properties of [PG], on the small environment *)

Section pg_tiny_more.
Import Tiny.
Open Scope R_scope.

Lemma update_needs_a_transition_witness :
  PG.buffer (PG.self Tiny.st0) = [] /\
  PG.update 0.95 Tiny.st0 = (Raise ValueError, Tiny.st0, [PG.Update 0.95]).
Proof.
  split; [reflexivity|].
  apply (proj1 update_needs_a_transition Tiny.st0 0.95). reflexivity.
Defined.

Lemma learn_train_leaves_buffer_empty_witness :
  exists st' tr,
    PG.learn Tiny.train_args Tiny.st0 = (Ok tt, st', tr) /\
    PG.buffer (PG.self st') = [].
Proof.
  destruct (learn_train_run Tiny.train_args Tiny.st0)
    as (st' & eps & Hrun & _); [reflexivity|simpl; lia|simpl; lia|].
  eexists st', _. split; [exact Hrun|].
  eapply (learn_train_leaves_buffer_empty Tiny.train_args Tiny.st0);
    [reflexivity|simpl; lia|exact Hrun].
Defined.

Lemma learn_train_without_steps_witness :
  exists st',
    PG.learn Tiny.no_step_args Tiny.st0
    = (Raise ValueError, st',
       [PG.EnvReset; PG.PrintEpisode 1 2 0; PG.Update 0.95]) /\
    PG.self st' = PG.self Tiny.st0 /\ PG.files st' = PG.files Tiny.st0.
Proof.
  apply (learn_train_without_steps Tiny.no_step_args Tiny.st0).
  - reflexivity.
  - simpl; lia.
  - simpl; lia.
  - reflexivity.
Defined.

Lemma learn_train_zero_interval_witness :
  exists st' steps ep_rs_sum,
    PG.learn Tiny.zero_interval_args Tiny.st0
    = (Raise ZeroDivisionError, st',
       [PG.EnvReset] ++ steps
       ++ [PG.PrintEpisode 1 2 ep_rs_sum; PG.Update 0.95]) /\
    PG.train_steps_trace Tiny.zero_interval_args 3 steps /\
    PG.buffer (PG.self st') = [] /\ PG.files st' = PG.files Tiny.st0.
Proof.
  apply (learn_train_zero_interval Tiny.zero_interval_args Tiny.st0).
  - reflexivity.
  - simpl; lia.
  - reflexivity.
  - simpl; lia.
Defined.

Lemma learn_test_never_trains_witness :
  exists st' tr,
    PG.learn Tiny.test_args Tiny.st0 = (Ok tt, st', tr) /\
    PG.self st' = PG.self Tiny.st0 /\
    Forall (fun ev => Trace.is_training ev = false) tr.
Proof.
  destruct (learn_test_never_trains Tiny.test_args Tiny.st0)
    as (st' & tr & Hrun & Hself & _ & _ & Hall); [reflexivity|].
  exists st', tr. split; [exact Hrun|]. split; [exact Hself|exact Hall].
Defined.

Lemma learn_without_episodes_witness :
  (exists st',
     PG.learn (PG.mk_args 0 200 3000 100 "train" false 0.95 None) Tiny.st0
     = (Ok tt, st', [PG.PlotSaveLog [] "PG" "Tiny-v0"]) /\
     PG.self st' = PG.self Tiny.st0) /\
  (exists st',
     PG.learn (PG.mk_args 300 0 3000 100 "test" false 0.95 None) Tiny.st0
     = (Ok tt, st', [PG.LoadCkpt]) /\
     PG.buffer (PG.self st') = PG.buffer (PG.self Tiny.st0)).
Proof.
  split.
  - exact (proj1 (learn_without_episodes
             (PG.mk_args 0 200 3000 100 "train" false 0.95 None) Tiny.st0)
             eq_refl (Z.le_refl 0)).
  - exact (proj2 (learn_without_episodes
             (PG.mk_args 300 0 3000 100 "test" false 0.95 None) Tiny.st0)
             eq_refl (Z.le_refl 0)).
Defined.


Lemma learn_render_off_witness :
  Forall (fun ev => Trace.is_render ev = false)
    (snd (PG.learn Tiny.train_args Tiny.st0)).
Proof. apply (learn_render_off Tiny.train_args Tiny.st0). reflexivity. Defined.

End pg_tiny_more.

(** ** The shape of the Q-values *)

Section qnets.
Open Scope R_scope.

(** The dueling aggregation keeps the shape of the advantage rows. *)
Lemma aggregation_shape {F} `{!DQN.Float32 F} {X} (q : X -> list F)
    (v : X -> F) (n : nat) (xs : list X) :
  (forall x, length (q x) = n) ->
  length (DQN.sub_column (DQN.add_column (map v xs) (map q xs))
            (DQN.reduce_mean_1 (map q xs))) = length xs /\
  Forall (fun row => length row = n)
    (DQN.sub_column (DQN.add_column (map v xs) (map q xs))
       (DQN.reduce_mean_1 (map q xs))).
Proof.
  intros Hq. unfold DQN.sub_column, DQN.add_column, DQN.reduce_mean_1.
  induction xs as [|x xs [IHl IHf]]; [split; [reflexivity|constructor]|].
  cbn [map zip_with length]. split; [rewrite IHl; reflexivity|].
  constructor; [|exact IHf]. rewrite !length_map. apply Hq.
Qed.

(** X14.  [forward] returns one row of Q-values per input row, each with
    [act_dim] entries, with or without the dueling head, for both
    networks, whatever the arithmetic of the tensors. *)
Theorem forward_shape {F : Type} `{!DQN.Float32 F} {Latent Hidden : Type} :
  (forall (net : DQN.MLPQNet F Latent) (obv : list (list F)),
     DQN.MLPQNet_wf net ->
     length (DQN.MLPQNet_forward net obv) = length obv /\
     Forall (fun row => length row = DQN.mlp_act_dim net)
       (DQN.MLPQNet_forward net obv)) /\
  (forall (net : DQN.CNNQNet F Latent Hidden) (obv : list (list F)),
     DQN.CNNQNet_wf net ->
     length (DQN.CNNQNet_forward net obv) = length obv /\
     Forall (fun row => length row = DQN.cnn_act_dim net)
       (DQN.CNNQNet_forward net obv)).
Proof.
  split.
  - intros net obv Hwf. unfold DQN.MLPQNet_forward.
    destruct (DQN.mlp_dueling net).
    + cbv zeta.
      destruct (aggregation_shape (DQN.qmlp net) (DQN.vmlp net)
                  (DQN.mlp_act_dim net) (map (DQN.mlp net) obv) Hwf)
        as [Hl Hf].
      rewrite length_map in Hl. split; assumption.
    + rewrite !length_map. split; [reflexivity|].
      rewrite map_map. apply Forall_map, Forall_forall. intros o _. apply Hwf.
  - intros net obv Hwf. unfold DQN.CNNQNet_forward.
    destruct (DQN.cnn_dueling net).
    + cbv zeta.
      destruct (aggregation_shape (fun x => DQN.qout net (DQN.preq net x))
                  (fun x => DQN.vout net (DQN.prev net x))
                  (DQN.cnn_act_dim net)
                  (map (DQN.cnn net) (map (map DQN.tf_div_255) obv))
                  (fun x => Hwf (DQN.preq net x)))
        as [Hl Hf].
      rewrite !length_map in Hl. split; assumption.
    + rewrite !length_map. split; [reflexivity|].
      rewrite !map_map. apply Forall_map, Forall_forall. intros o _. apply Hwf.
Qed.

Lemma forward_shape_witness :
  length (DQN.MLPQNet_forward DQN.tiny_mlp [[1; 2]; [3]]) = 2%nat /\
  Forall (fun row => length row = 2%nat)
    (DQN.MLPQNet_forward DQN.tiny_mlp [[1; 2]; [3]]).
Proof.
  apply (proj1 (@forward_shape R DQN.exact_arithmetic R R)
           DQN.tiny_mlp [[1; 2]; [3]]).
  intros latent. reflexivity.
Defined.

End qnets.

(** ** The tables of DQN *)

Section dqn_tables.
Import DQNDefault.

Local Abbreviation dict := (gmap string value).

(** What both configuration functions do once [params] holds the
    defaults updated by [kwargs], given that ['dueling'] is bound. *)
Lemma tables_finish (net : bool -> network) (opt : optimizer) (params : dict)
    (d : value) :
  params !! "dueling" = Some d ->
  exists out : dict,
    match
      (if get_is_none params "network" then
         match pop params "dueling" with
         | Return (dueling, params) =>
             Return (<["network" := VNetwork (net (truthy dueling))]> params)
         | Throw err => Throw err
         end
       else Return params)
    with
    | Throw err => Throw err
    | Return params =>
        let params :=
          if get_is_none params "optimizer" then
            <["optimizer" := VOptimizer opt]> params
          else params in
        Return (∅ : dict, params)
    end = Return (∅, out) /\
    (forall key, key <> "network" -> key <> "optimizer" -> key <> "dueling" ->
       out !! key = params !! key) /\
    (get_is_none params "network" = true ->
       out !! "network" = Some (VNetwork (net (truthy d))) /\
       out !! "dueling" = None) /\
    (get_is_none params "network" = false ->
       out !! "network" = params !! "network" /\ out !! "dueling" = Some d) /\
    (get_is_none params "optimizer" = true ->
       out !! "optimizer" = Some (VOptimizer opt)) /\
    (get_is_none params "optimizer" = false ->
       out !! "optimizer" = params !! "optimizer").
Proof.
  intros Hd. unfold pop. rewrite Hd.
  assert (Hopt_del : get_is_none (delete "dueling" params) "optimizer"
                     = get_is_none params "optimizer").
  { unfold get_is_none. rewrite lookup_delete_ne by discriminate. reflexivity. }
  assert (Hopt_ins : forall v (m : dict),
            get_is_none (<["network" := v]> m) "optimizer"
            = get_is_none m "optimizer").
  { intros v m. unfold get_is_none. rewrite lookup_insert_ne by discriminate.
    reflexivity. }
  destruct (get_is_none params "network") eqn:Hnet;
    rewrite ?Hopt_ins, ?Hopt_del;
    destruct (get_is_none params "optimizer") eqn:Hopt; cbv zeta;
    eexists; (split; [reflexivity|]); repeat split; intros;
    try congruence;
    repeat first
      [ rewrite lookup_insert_eq
      | rewrite lookup_insert_ne by congruence
      | rewrite lookup_delete_eq
      | rewrite lookup_delete_ne by congruence ];
    try reflexivity; try assumption.
Qed.

(** The defaults of the two functions, as written in the source. *)
Local Abbreviation atari_defaults := (list_to_map [
    ("batch_size", VInt 32);
    ("double_q", VBool true);
    ("buffer_size", VInt 10000);
    ("exploration_rate", VFloat (1 # 10));
    ("exploration_final_eps", VFloat (1 # 100));
    ("train_freq", VInt 4);
    ("learning_starts", VInt 10000);
    ("target_network_update_freq", VInt 1000);
    ("gamma", VFloat (99 # 100));
    ("prioritized_replay", VBool true);
    ("prioritized_alpha", VFloat (6 # 10));
    ("prioritized_beta0", VFloat (4 # 10));
    ("dueling", VBool true) ] : dict).

Local Abbreviation classic_defaults := (list_to_map [
    ("batch_size", VInt 32);
    ("double_q", VBool true);
    ("buffer_size", VInt 1000);
    ("exploration_rate", VFloat (2 # 10));
    ("exploration_final_eps", VFloat (1 # 100));
    ("train_freq", VInt 4);
    ("learning_starts", VInt 200);
    ("target_network_update_freq", VInt 50);
    ("gamma", VFloat (99 # 100));
    ("prioritized_replay", VBool false);
    ("prioritized_alpha", VFloat (6 # 10));
    ("prioritized_beta0", VFloat (4 # 10));
    ("dueling", VBool true) ] : dict).

Lemma atari_defaults_dueling : atari_defaults !! "dueling" = Some (VBool true).
Proof. vm_compute. reflexivity. Qed.

Lemma classic_defaults_dueling :
  classic_defaults !! "dueling" = Some (VBool true).
Proof. vm_compute. reflexivity. Qed.

Lemma union_dueling (kwargs d : dict) :
  d !! "dueling" = Some (VBool true) ->
  (kwargs ∪ d) !! "dueling"
  = Some (default (VBool true) (kwargs !! "dueling")).
Proof.
  intros Hd. rewrite lookup_union, Hd.
  destruct (kwargs !! "dueling"); reflexivity.
Qed.

Lemma union_get_is_none (kwargs d : dict) key :
  d !! key = None ->
  get_is_none (kwargs ∪ d) key = get_is_none kwargs key.
Proof.
  intros Hd. unfold get_is_none. rewrite lookup_union, Hd.
  destruct (kwargs !! key); reflexivity.
Qed.

Lemma union_lookup (kwargs d : dict) key :
  (kwargs ∪ d) !! key
  = match kwargs !! key with Some v => Some v | None => d !! key end.
Proof.
  rewrite lookup_union. destruct (kwargs !! key), (d !! key); reflexivity.
Qed.

(** X17.  Keyword arguments override the defaults and are passed
    through: for every key other than ['network'], ['optimizer'] and
    ['dueling'], the returned table binds the key to the value given in
    [kwargs] if there is one, and to its default otherwise.  [atari]
    always returns; [classic_control] does for an observation shape with
    at least one dimension.  The first returned table is empty. *)
Theorem dqn_tables_kwargs (e : env) (kwargs : dict) :
  (exists params defaults : dict,
     atari e kwargs = Return (∅, params) /\
     atari e ∅ = Return (∅, defaults) /\
     forall key,
       key <> "network" -> key <> "optimizer" -> key <> "dueling" ->
       params !! key
       = match kwargs !! key with
         | Some v => Some v
         | None => defaults !! key
         end) /\
  (forall in_dim,
     observation_shape e !! 0%nat = Some in_dim ->
     exists params defaults : dict,
       classic_control e kwargs = Return (∅, params) /\
       classic_control e ∅ = Return (∅, defaults) /\
       forall key,
         key <> "network" -> key <> "optimizer" -> key <> "dueling" ->
         params !! key
         = match kwargs !! key with
           | Some v => Some v
           | None => defaults !! key
           end).
Proof.
  split.
  - destruct (tables_finish (CNNQNet (observation_shape e) (action_n e))
                (Adam (1 # 10000) (1 # 100000) (Some 10%Q))
                (kwargs ∪ atari_defaults) _
                (union_dueling kwargs atari_defaults atari_defaults_dueling))
      as (params & Hrun & Hkeys & _).
    destruct (tables_finish (CNNQNet (observation_shape e) (action_n e))
                (Adam (1 # 10000) (1 # 100000) (Some 10%Q))
                (∅ ∪ atari_defaults) _
                (union_dueling ∅ atari_defaults atari_defaults_dueling))
      as (defaults & Hrun0 & Hkeys0 & _).
    exists params, defaults. split; [exact Hrun|]. split; [exact Hrun0|].
    intros key H1 H2 H3.
    rewrite (Hkeys key H1 H2 H3), (Hkeys0 key H1 H2 H3), !union_lookup.
    rewrite lookup_empty. reflexivity.
  - intros in_dim Hshape.
    destruct (tables_finish (MLPQNet in_dim (action_n e))
                (Adam (5 # 1000) (1 # 100000) None)
                (kwargs ∪ classic_defaults) _
                (union_dueling kwargs classic_defaults classic_defaults_dueling))
      as (params & Hrun & Hkeys & _).
    destruct (tables_finish (MLPQNet in_dim (action_n e))
                (Adam (5 # 1000) (1 # 100000) None)
                (∅ ∪ classic_defaults) _
                (union_dueling ∅ classic_defaults classic_defaults_dueling))
      as (defaults & Hrun0 & Hkeys0 & _).
    exists params, defaults.
    unfold classic_control. rewrite Hshape.
    split; [exact Hrun|]. split; [exact Hrun0|].
    intros key H1 H2 H3.
    rewrite (Hkeys key H1 H2 H3), (Hkeys0 key H1 H2 H3), !union_lookup.
    rewrite lookup_empty. reflexivity.
Qed.

Lemma dqn_tables_kwargs_witness :
  exists params defaults : dict,
    classic_control {| observation_shape := [4%Z]; action_n := 2 |}
      {["batch_size" := VInt 64]} = Return (∅, params) /\
    classic_control {| observation_shape := [4%Z]; action_n := 2 |} ∅
    = Return (∅, defaults) /\
    forall key,
      key <> "network" -> key <> "optimizer" -> key <> "dueling" ->
      params !! key
      = match ({["batch_size" := VInt 64]} : dict) !! key with
        | Some v => Some v
        | None => defaults !! key
        end.
Proof.
  apply (proj2 (dqn_tables_kwargs
                  {| observation_shape := [4%Z]; action_n := 2 |}
                  {["batch_size" := VInt 64]}) 4%Z).
  reflexivity.
Defined.

(** X18.  How the network is chosen.  When [kwargs] brings no network
    (or [None]), the network is built for the environment, with the
    dueling head exactly when the ['dueling'] entry (from [kwargs], else
    the default [True]) is truthy, and the ['dueling'] key is removed
    from the returned table.  When [kwargs] brings a network, it is
    returned as given and the ['dueling'] key stays in the table.  The
    default optimizer is filled in the same way, only when none is
    given. *)
Theorem dqn_tables_network (e : env) (kwargs : dict) :
  let dueling := default (VBool true) (kwargs !! "dueling") in
  (exists params : dict,
     atari e kwargs = Return (∅, params) /\
     (get_is_none kwargs "network" = true ->
        params !! "network"
        = Some (VNetwork (CNNQNet (observation_shape e) (action_n e)
                            (truthy dueling))) /\
        params !! "dueling" = None) /\
     (get_is_none kwargs "network" = false ->
        params !! "network" = kwargs !! "network" /\
        params !! "dueling" = Some dueling) /\
     (get_is_none kwargs "optimizer" = true ->
        params !! "optimizer"
        = Some (VOptimizer (Adam (1 # 10000) (1 # 100000) (Some 10%Q)))) /\
     (get_is_none kwargs "optimizer" = false ->
        params !! "optimizer" = kwargs !! "optimizer")) /\
  (forall in_dim,
     observation_shape e !! 0%nat = Some in_dim ->
     exists params : dict,
       classic_control e kwargs = Return (∅, params) /\
       (get_is_none kwargs "network" = true ->
          params !! "network"
          = Some (VNetwork (MLPQNet in_dim (action_n e) (truthy dueling))) /\
          params !! "dueling" = None) /\
       (get_is_none kwargs "network" = false ->
          params !! "network" = kwargs !! "network" /\
          params !! "dueling" = Some dueling) /\
       (get_is_none kwargs "optimizer" = true ->
          params !! "optimizer"
          = Some (VOptimizer (Adam (5 # 1000) (1 # 100000) None))) /\
       (get_is_none kwargs "optimizer" = false ->
          params !! "optimizer" = kwargs !! "optimizer")).
Proof.
  intros dueling.
  assert (Hsupplied : forall (d : dict) key,
    d !! key = None -> get_is_none kwargs key = false ->
    (kwargs ∪ d) !! key = kwargs !! key).
  { intros d key Hd Hk. rewrite union_lookup. unfold get_is_none in Hk.
    destruct (kwargs !! key); [reflexivity|discriminate]. }
  split.
  - destruct (tables_finish (CNNQNet (observation_shape e) (action_n e))
                (Adam (1 # 10000) (1 # 100000) (Some 10%Q))
                (kwargs ∪ atari_defaults) _
                (union_dueling kwargs atari_defaults atari_defaults_dueling))
      as (params & Hrun & _ & Hn1 & Hn0 & Ho1 & Ho0).
    rewrite union_get_is_none in Hn1, Hn0, Ho1, Ho0 by (vm_compute; reflexivity).
    exists params. split; [exact Hrun|].
    split; [exact Hn1|]. split; [|split; [exact Ho1|]].
    + intros Hk. destruct (Hn0 Hk) as [-> ->].
      split; [apply Hsupplied; [vm_compute; reflexivity|exact Hk]|reflexivity].
    + intros Hk. rewrite (Ho0 Hk). apply Hsupplied; [vm_compute; reflexivity|exact Hk].
  - intros in_dim Hshape.
    destruct (tables_finish (MLPQNet in_dim (action_n e))
                (Adam (5 # 1000) (1 # 100000) None)
                (kwargs ∪ classic_defaults) _
                (union_dueling kwargs classic_defaults classic_defaults_dueling))
      as (params & Hrun & _ & Hn1 & Hn0 & Ho1 & Ho0).
    rewrite union_get_is_none in Hn1, Hn0, Ho1, Ho0 by (vm_compute; reflexivity).
    exists params. unfold classic_control. rewrite Hshape.
    split; [exact Hrun|].
    split; [exact Hn1|]. split; [|split; [exact Ho1|]].
    + intros Hk. destruct (Hn0 Hk) as [-> ->].
      split; [apply Hsupplied; [vm_compute; reflexivity|exact Hk]|reflexivity].
    + intros Hk. rewrite (Ho0 Hk). apply Hsupplied; [vm_compute; reflexivity|exact Hk].
Qed.

Lemma dqn_tables_network_witness :
  exists params : dict,
    atari {| observation_shape := [84%Z; 84%Z; 4%Z]; action_n := 6 |}
      {["dueling" := VBool false]} = Return (∅, params) /\
    params !! "network"
    = Some (VNetwork (CNNQNet [84%Z; 84%Z; 4%Z] 6 false)) /\
    params !! "dueling" = None.
Proof.
  destruct (proj1 (dqn_tables_network
                     {| observation_shape := [84%Z; 84%Z; 4%Z]; action_n := 6 |}
                     {["dueling" := VBool false]}))
    as (params & Hrun & Hbuilt & _).
  exists params. split; [exact Hrun|]. apply Hbuilt. reflexivity.
Defined.

(** X19.  [classic_control] raises [IndexError] exactly when the
    observation shape has no dimension, whatever [kwargs] holds, and
    neither function ever raises [KeyError]: the ['dueling'] key that is
    popped is always bound, by the defaults if not by [kwargs]. *)
Theorem dqn_tables_errors (e : env) (kwargs : dict) :
  (classic_control e kwargs = Throw IndexError <-> observation_shape e = []) /\
  classic_control e kwargs <> Throw KeyError /\
  (exists out, atari e kwargs = Return out).
Proof.
  assert (Hclassic : forall in_dim shape,
    observation_shape e = in_dim :: shape ->
    exists params : dict, classic_control e kwargs = Return (∅, params)).
  { intros in_dim shape Es.
    destruct (tables_finish (MLPQNet in_dim (action_n e))
                (Adam (5 # 1000) (1 # 100000) None)
                (kwargs ∪ classic_defaults) _
                (union_dueling kwargs classic_defaults classic_defaults_dueling))
      as (params & Hrun & _).
    exists params. unfold classic_control. rewrite Es. exact Hrun. }
  split; [|split].
  - split.
    + intros Hthrow. destruct (observation_shape e) as [|in_dim shape] eqn:Es;
        [reflexivity|].
      destruct (Hclassic in_dim shape eq_refl) as (params & Hrun).
      rewrite Hrun in Hthrow. discriminate Hthrow.
    + intros Hs. unfold classic_control. rewrite Hs. reflexivity.
  - intros Hthrow. destruct (observation_shape e) as [|in_dim shape] eqn:Es.
    + unfold classic_control in Hthrow. rewrite Es in Hthrow.
      discriminate Hthrow.
    + destruct (Hclassic in_dim shape eq_refl) as (params & Hrun).
      rewrite Hrun in Hthrow. discriminate Hthrow.
  - destruct (tables_finish (CNNQNet (observation_shape e) (action_n e))
                (Adam (1 # 10000) (1 # 100000) (Some 10%Q))
                (kwargs ∪ atari_defaults) _
                (union_dueling kwargs atari_defaults atari_defaults_dueling))
      as (params & Hrun & _).
    eexists. exact Hrun.
Qed.

End dqn_tables.

(** ** More on the tables of TD3 *)

Section td3_more.



(** X21.  The five functions [classic_control], [box2d], [mujoco],
    [robotics] and [dm_control] are the same function: they agree on
    every environment and flag, also on shapes of several dimensions and
    when they raise.  [rlbench] returns the tables of [classic_control]
    with [action_range] rebound to [0.1], and raises when it raises. *)
Theorem td3_tables_same_function (e : TD3.env) (default_seed : bool) :
  TD3.box2d e default_seed = TD3.classic_control e default_seed /\
  TD3.mujoco e default_seed = TD3.classic_control e default_seed /\
  TD3.robotics e default_seed = TD3.classic_control e default_seed /\
  TD3.dm_control e default_seed = TD3.classic_control e default_seed /\
  TD3.rlbench e default_seed
  = match TD3.classic_control e default_seed with
    | Ok t =>
        Ok {| TD3.seeded := TD3.seeded t;
              TD3.alg_params :=
                <["action_range" := TD3.VFloat (1 # 10)]> (TD3.alg_params t);
              TD3.learn_params := TD3.learn_params t |}
    | Raise err => Raise err
    end.
Proof.
  repeat (split; [reflexivity|]).
  unfold TD3.classic_control, TD3.rlbench, TD3.first.
  destruct (TD3.observation_space e) as [|s so]; [reflexivity|].
  destruct (TD3.action_space e) as [|a ao]; [reflexivity|].
  cbn [lookup list_lookup TD3.bind TD3.seeded TD3.alg_params TD3.learn_params].
  reflexivity.
Qed.

(** X22.  When a configuration function returns, [state_dim] and
    [action_dim] are the first dimensions of the shapes, the seed [2] has
    been set exactly when [default_seed] holds, and the tables are
    complete: [alg_params] has its five scalar entries, a [net_list] of
    the six networks (two Q-networks, their two targets, the policy and
    its target, each with four hidden layers of 64 units, built on the
    spaces of the environment) and an [optimizers_list] of three Adam
    optimizers with learning rate [3e-4]; the test
    [alg_params.get('net_list') is None] never finds a list already
    there. *)
Theorem td3_tables_complete (e : TD3.env) (default_seed : bool) (s a : Z)
    (so ao : list Z) :
  TD3.observation_space e = s :: so ->
  TD3.action_space e = a :: ao ->
  exists t : TD3.tables,
    TD3.classic_control e default_seed = Ok t /\
    TD3.seeded t = (if default_seed then Some 2%Z else None) /\
    dom (TD3.alg_params t)
    = list_to_set ["state_dim"; "action_dim"; "replay_buffer_capacity";
                   "policy_target_update_interval"; "action_range";
                   "net_list"; "optimizers_list"] /\
    TD3.alg_params t !! "state_dim" = Some (TD3.VInt s) /\
    TD3.alg_params t !! "action_dim" = Some (TD3.VInt a) /\
    TD3.alg_params t !! "net_list"
    = Some (TD3.VNets (TD3.net_list e 4 64)) /\
    length (TD3.net_list e 4 64) = 6%nat /\
    TD3.alg_params t !! "optimizers_list"
    = Some (TD3.VOptimizers
              [TD3.Adam (3 # 10000); TD3.Adam (3 # 10000); TD3.Adam (3 # 10000)]) /\
    size (TD3.learn_params t) = 10%nat.
Proof.
  intros Hs Ha. unfold TD3.classic_control, TD3.first.
  rewrite Hs, Ha. cbn [lookup list_lookup TD3.bind].
  eexists. split; [reflexivity|].
  cbn [TD3.seeded TD3.alg_params TD3.learn_params].
  split; [reflexivity|].
  split; [vm_compute; reflexivity|].
  repeat (split; [reflexivity|]).
  vm_compute. reflexivity.
Qed.

Lemma td3_tables_complete_witness :
  exists t : TD3.tables,
    TD3.classic_control (TD3.Build_env [3%Z; 2%Z] [1%Z]) false = Ok t /\
    TD3.seeded t = None /\
    TD3.alg_params t !! "state_dim" = Some (TD3.VInt 3).
Proof.
  destruct (td3_tables_complete (TD3.Build_env [3%Z; 2%Z] [1%Z]) false 3 1
              [2%Z] [] eq_refl eq_refl)
    as (t & Hrun & Hseed & _ & Hstate & _).
  exists t. split; [exact Hrun|]. split; assumption.
Defined.

End td3_more.

(** ** Counting what a train run does *)

Section pg_counts.
Open Scope R_scope.
Context {E Obs Act Model Opt Rng Files : Type}.
Context `{!Env E Obs Act} `{!Framework Obs Act Model Opt Rng Files}.

Local Abbreviation state := (@PG.state E Obs Act Model Opt Rng Files).
Local Abbreviation event := (@PG.event Obs Act).

Lemma count_app (kind : event -> bool) (tr1 tr2 : list event) :
  Trace.count kind (tr1 ++ tr2) = (Trace.count kind tr1 + Trace.count kind tr2)%nat.
Proof. unfold Trace.count. rewrite List.filter_app, length_app. reflexivity. Qed.

Lemma train_steps_trace_counts a n (tr : list event) :
  PG.train_steps_trace a n tr ->
  Trace.count Trace.is_reset tr = 0%nat /\
  Trace.count Trace.is_update tr = 0%nat /\
  (Trace.count Trace.is_step tr <= n)%nat /\
  Trace.count Trace.is_store tr = Trace.count Trace.is_step tr.
Proof.
  induction 1 as [|n s act s_ r|n s act s_ r tr _ (IH1 & IH2 & IH3 & IH4)].
  - repeat split; try reflexivity; try lia.
  - unfold PG.train_iteration.
    destruct (PG.render a); cbn; repeat split; lia.
  - unfold PG.train_iteration. rewrite !count_app, IH1, IH2, IH4.
    destruct (PG.render a); cbn; repeat split; lia.
Qed.

Lemma train_episodes_counts a episodes (eps : list (list event)) :
  Forall2 (PG.train_episode_trace a) episodes eps ->
  Trace.count Trace.is_reset (concat eps) = length episodes /\
  Trace.count Trace.is_update (concat eps) = length episodes /\
  (Trace.count Trace.is_step (concat eps)
   <= length episodes * Z.to_nat (PG.max_steps a))%nat /\
  Trace.count Trace.is_store (concat eps)
  = Trace.count Trace.is_step (concat eps).
Proof.
  induction 1 as [|i tr episodes eps Htr _ (IH1 & IH2 & IH3 & IH4)].
  - repeat split; try reflexivity; try lia.
  - destruct Htr as (steps & ep & Hsteps & ->).
    destruct (train_steps_trace_counts a _ _ Hsteps) as (H1 & H2 & H3 & H4).
    cbn [concat length]. rewrite !count_app, IH1, IH2, IH4, H1, H2, H4.
    destruct (_ =? 0)%Z; cbn; repeat split; lia.
Qed.

(** X23.  A completed train run resets the environment once per episode
    and calls [update] once per episode, [train_episodes] times in all;
    it takes at most [train_episodes * max_steps] environment steps, and
    stores exactly one transition per step. *)
Theorem learn_train_counts a (st : state) :
  PG.mode a = "train" ->
  (0 < PG.max_steps a)%Z -> PG.save_interval a <> 0%Z ->
  exists st' tr,
    PG.learn a st = (Ok tt, st', tr) /\
    Trace.count Trace.is_reset tr = Z.to_nat (PG.train_episodes a) /\
    Trace.count Trace.is_update tr = Z.to_nat (PG.train_episodes a) /\
    (Trace.count Trace.is_step tr
     <= Z.to_nat (PG.train_episodes a) * Z.to_nat (PG.max_steps a))%nat /\
    Trace.count Trace.is_store tr = Trace.count Trace.is_step tr.
Proof.
  intros Hmode Hms Hsi.
  destruct (learn_train_run a st Hmode Hms Hsi) as (st' & eps & Hrun & Hshape).
  destruct (train_episodes_counts a _ eps Hshape) as (H1 & H2 & H3 & H4).
  rewrite range_length in H1, H2, H3.
  replace (Z.to_nat (PG.train_episodes a + 1 - 1))
    with (Z.to_nat (PG.train_episodes a)) in * by lia.
  assert (Hseeds : forall kind : event -> bool,
    (forall z, kind (PG.NpSeed z) = false) ->
    (forall z, kind (PG.TfSeed z) = false) ->
    (forall z, kind (PG.EnvSeed z) = false) ->
    Trace.count kind (PG.seeding_events (PG.seed a)) = 0%nat).
  { intros kind K1 K2 K3. unfold PG.seeding_events, Trace.count.
    destruct (PG.seed a) as [z|]; [|reflexivity].
    destruct (z =? 0)%Z; [reflexivity|]. cbn. rewrite K1, K2, K3. reflexivity. }
  eexists st', _. split; [exact Hrun|].
  rewrite !count_app, !Hseeds by reflexivity.
  rewrite H1, H2, H4. cbn. repeat split; lia.
Qed.

End pg_counts.

Section pg_counts_tiny.
Import Tiny.

Lemma learn_train_counts_witness :
  exists st' tr,
    PG.learn Tiny.train_args Tiny.st0 = (Ok tt, st', tr) /\
    Trace.count Trace.is_reset tr = 2%nat /\
    Trace.count Trace.is_update tr = 2%nat /\
    (Trace.count Trace.is_step tr <= 2 * 3)%nat /\
    Trace.count Trace.is_store tr = Trace.count Trace.is_step tr.
Proof.
  apply (learn_train_counts Tiny.train_args Tiny.st0).
  - reflexivity.
  - simpl; lia.
  - simpl; lia.
Defined.

End pg_counts_tiny.
